(** * Verification of the SACCO reporting backend (report pipeline, models, routes)

    Shallow embedding of:
    - [src/backend/services/reportGenerator.js]: [initBrowser],
      [generateReport], [fetchComplianceData], [processComplianceChecks],
      [applyTemplateTransformations], [evaluateFilter], [aggregateData],
      [renderTable], [filterDataForSection];
    - [src/unnamed/part_002]: the [Report] model ([status] enum, the
      [beforeCreate] hook, [isOverdue], [canBeEdited], [canBeApproved],
      [canBeSubmitted], [findOverdue]) and the [User] model ([toJSON],
      [hasAnyRole], [isManager]);
    - [src/unnamed/part_005]: the [authenticateToken] and [requireRole]
      middleware;
    - [src/backend/models/Report.js]: the [POST /], [GET /:id], [PUT /:id],
      [DELETE /:id] and [GET /:id/download] routes. *)

From Stdlib Require Import String Ascii List Bool ZArith QArith Lia.
From Stdlib Require Import DecimalString Qround Qabs Qpower Permutation Sorted Lqa Arith.
Import ListNotations.
Open Scope string_scope.

(** ** JavaScript values *)

(** The values a record field can hold.  [JNum] carries a finite number as an
    exact rational, [JNaN] is [NaN].  [JBuiltin name] stands for a built-in
    object reached through [Object.prototype] (e.g. [o["constructor"]] is the
    [Object] function): an object, hence truthy.  [JDate t] is a [Date] object
    holding the time value [t] (milliseconds since the epoch). *)
Inductive jsval : Type :=
| JUndef
| JNull
| JBool (b : bool)
| JNum (q : Q)
| JNaN
| JStr (s : string)
| JBuiltin (name : string)
| JDate (t : Z).

(** A number result; [None] is [NaN].  Numbers are kept in reduced form. *)
Definition of_num (n : option Q) : jsval :=
  match n with Some q => JNum (Qred q) | None => JNaN end.

(** Decimal printing of an integral number; a non-integral number is printed
    as its reduced fraction [p/q] (JavaScript prints the shortest decimal; the
    claims below never print a non-integral number). *)
Definition Z_to_string (z : Z) : string := NilZero.string_of_int (Z.to_int z).

Definition number_to_string (q : Q) : string :=
  let r := Qred q in
  if (Zpos (Qden r) =? 1)%Z then Z_to_string (Qnum r)
  else Z_to_string (Qnum r) ++ "/" ++ Z_to_string (Zpos (Qden r)).

(** [ToString]. *)
Definition to_string (v : jsval) : string :=
  match v with
  | JUndef => "undefined"
  | JNull => "null"
  | JBool true => "true"
  | JBool false => "false"
  | JNum q => number_to_string q
  | JNaN => "NaN"
  | JStr s => s
  | JBuiltin n => "function " ++ n ++ "() { [native code] }"
  | JDate t => "Date(" ++ Z_to_string t ++ ")"
  end.

(** ** IEEE-754 double arithmetic

    A finite double is [m * 2^e] with [|m| < 2^53]; an arithmetic operation
    yields the exact result rounded to the nearest double, ties to an even
    significand.  [round_double x] is that rounding of the exact rational
    [x] (subnormals included; no result here comes near overflow). *)
Definition pow2 (k : Z) : Q :=
  if (0 <=? k)%Z then inject_Z (2 ^ k) else 1 # Z.to_pos (2 ^ (- k)).

(** The exponent [e] with [2^e <= |q| < 2^(e+1)], for [q <> 0]. *)
Definition float_exp (q : Q) : Z :=
  let e := (Z.log2 (Z.abs (Qnum q)) - Z.log2 (Zpos (Qden q)))%Z in
  if Qle_bool (pow2 e) (Qabs q) then e else (e - 1)%Z.

(** The integer nearest to [x], ties to the even one. *)
Definition round_half_even (x : Q) : Z :=
  let f := Qfloor x in
  let r := (x - inject_Z f)%Q in
  if Qle_bool (1 # 2) r then
    if Qeq_bool r (1 # 2) then (if Z.even f then f else f + 1)%Z else (f + 1)%Z
  else f.

Definition round_double (x : Q) : Q :=
  let q := Qred x in
  if Qeq_bool q 0 then 0%Q
  else
    let k := Z.min (52 - float_exp q) 1074 in
    Qred (inject_Z (round_half_even (q * pow2 k)) * pow2 (- k)).

(** [ToNumber] of a string: the empty string is [0], an optionally signed
    decimal integer is its value rounded to a double, everything else is
    [NaN] (whitespace, fractions and exponents are not parsed by this
    model). *)
Definition string_to_number (s : string) : option Q :=
  match s with
  | EmptyString => Some 0%Q
  | _ => match NilZero.int_of_string s with
         | Some i => Some (round_double (inject_Z (Z.of_int i)))
         | None => None
         end
  end.

(** [ToNumber]; [None] is [NaN]. *)
Definition to_number (v : jsval) : option Q :=
  match v with
  | JUndef => None
  | JNull => Some 0%Q
  | JBool b => Some (if b then 1 else 0)%Q
  | JNum q => Some q
  | JNaN => None
  | JStr s => string_to_number s
  | JBuiltin _ => None
  | JDate t => Some (inject_Z t)
  end.

(** [ToBoolean]. *)
Definition truthy (v : jsval) : bool :=
  match v with
  | JUndef | JNull | JNaN => false
  | JBool b => b
  | JNum q => negb (Qeq_bool q 0)
  | JStr s => negb (String.eqb s "")
  | JBuiltin _ | JDate _ => true
  end.

(** Strict equality [===]; two [Date] objects are never the same object
    here. *)
Definition strict_eq (a b : jsval) : bool :=
  match a, b with
  | JUndef, JUndef | JNull, JNull => true
  | JBool x, JBool y => Bool.eqb x y
  | JNum x, JNum y => Qeq_bool x y
  | JStr x, JStr y => String.eqb x y
  | JBuiltin x, JBuiltin y => String.eqb x y
  | _, _ => false
  end.

(** A primitive is a string after [ToPrimitive] when it is a string or an
    object (built-in functions convert to their source text, a [Date] to its
    date string). *)
Definition prim_is_string (v : jsval) : bool :=
  match v with JStr _ | JBuiltin _ | JDate _ => true | _ => false end.

(** [a + b]: string concatenation, or the exact sum rounded to a double. *)
Definition js_add (a b : jsval) : jsval :=
  if prim_is_string a || prim_is_string b then JStr (to_string a ++ to_string b)
  else match to_number a, to_number b with
       | Some x, Some y => of_num (Some (round_double (x + y)))
       | _, _ => JNaN
       end.

(** [a - b] as a number ([None] is [NaN]): the exact difference rounded to
    a double. *)
Definition js_sub (a b : jsval) : option Q :=
  match to_number a, to_number b with
  | Some x, Some y => Some (round_double (x - y))
  | _, _ => None
  end.

(** [a / 2], rounded to a double. *)
Definition js_half (a : jsval) : jsval :=
  match to_number a with
  | Some x => of_num (Some (round_double (x / 2)))
  | None => JNaN
  end.

(** [a++] (the new value).  It is applied only to counters that start at
    [0] and grow by one per record; they stay below [2^53], where every
    integer is a double, so the sum is exact. *)
Definition js_inc (a : jsval) : jsval :=
  match to_number a with
  | Some x => of_num (Some (x + 1)%Q)
  | None => JNaN
  end.

(** [a < b] (the abstract relational comparison; [undefined] gives false). *)
Definition js_lt (a b : jsval) : bool :=
  if prim_is_string a && prim_is_string b then String.ltb (to_string a) (to_string b)
  else match to_number a, to_number b with
       | Some x, Some y => negb (Qle_bool y x)
       | _, _ => false
       end.

(** [hay.includes(needle)]. *)
Fixpoint str_includes (needle hay : string) : bool :=
  if String.prefix needle hay then true
  else match hay with
       | EmptyString => false
       | String _ rest => str_includes needle rest
       end.

(** ** Plain objects *)

(** A plain object: its own properties in insertion order. *)
Definition jsobj := list (string * jsval).

(** The property names a plain object inherits from [Object.prototype]. *)
Definition object_prototype_props : list string :=
  ["constructor"; "__defineGetter__"; "__defineSetter__"; "hasOwnProperty";
   "__lookupGetter__"; "__lookupSetter__"; "isPrototypeOf";
   "propertyIsEnumerable"; "toString"; "valueOf"; "__proto__";
   "toLocaleString"].

Definition is_inherited (k : string) : bool :=
  existsb (String.eqb k) object_prototype_props.

Fixpoint own {A} (o : list (string * A)) (k : string) : option A :=
  match o with
  | [] => None
  | (k', v) :: o' => if String.eqb k k' then Some v else own o' k
  end.

(** [o[k]]. *)
Definition obj_get (o : jsobj) (k : string) : jsval :=
  match own o k with
  | Some v => v
  | None => if is_inherited k then JBuiltin k else JUndef
  end.

(** [o[k] = v]: an existing own property keeps its place. *)
Fixpoint obj_set {A} (o : list (string * A)) (k : string) (v : A) : list (string * A) :=
  match o with
  | [] => [(k, v)]
  | (k', v') :: o' => if String.eqb k k' then (k, v) :: o' else (k', v') :: obj_set o' k v
  end.

(** [delete o[k]]: removes the property [k] (an object has at most one). *)
Definition obj_delete {A} (o : list (string * A)) (k : string) : list (string * A) :=
  filter (fun kv => negb (String.eqb (fst kv) k)) o.

(** Own keys come out with the array indices first, in ascending order, then
    the other keys in insertion order ([OrdinaryOwnPropertyKeys]). *)
Definition array_index (k : string) : option Z :=
  if String.eqb k "0" then Some 0%Z
  else if String.prefix "0" k then None
  else match k with
       | EmptyString => None
       | _ => match NilZero.uint_of_string k with
              | Some u => let z := Z.of_uint u in
                          if (z <? 4294967295)%Z then Some z else None
              | None => None
              end
       end.

Fixpoint insert_index {A} (z : Z) (x : A) (l : list (Z * A)) : list (Z * A) :=
  match l with
  | [] => [(z, x)]
  | (z', y) :: l' => if (z <? z')%Z then (z, x) :: l else (z', y) :: insert_index z x l'
  end.

Definition ordinary_own_entries {A} (o : list (string * A)) : list (string * A) :=
  let idx := fold_left (fun acc kv => match array_index (fst kv) with
                                      | Some z => insert_index z kv acc
                                      | None => acc
                                      end) o [] in
  map snd idx ++ filter (fun kv => match array_index (fst kv) with
                                   | Some _ => false | None => true end) o.

(** [Object.values(o)]. *)
Definition object_values {A} (o : list (string * A)) : list A :=
  map snd (ordinary_own_entries o).

(** ** Exceptions *)

(** A computation that returns a value or throws an [Error] with a message. *)
Inductive result (A : Type) : Type :=
| Ok (a : A)
| Throw (msg : string).
Arguments Ok {A} a.
Arguments Throw {A} msg.

Definition bind {A B} (r : result A) (f : A -> result B) : result B :=
  match r with Ok a => f a | Throw m => Throw m end.

Notation "x <- r ;; k" := (bind r (fun x => k))
  (at level 61, r at next level, right associativity).

(** ** [applyTemplateTransformations] and its steps (reportGenerator.js) *)

(** A filter criterion [{ field, operator, value }]. *)
Record criterion : Type := {
  c_field : string;
  c_operator : jsval;
  c_value : jsval
}.

(** An aggregate field [{ name, operation, sourceField }]. *)
Record aggregate_field : Type := {
  a_name : string;
  a_operation : jsval;
  a_sourceField : string
}.

(** A transformation step; the fields a step of another type does not read
    are ignored. *)
Record transformation : Type := {
  t_type : jsval;
  t_criteria : list criterion;
  t_field : string;
  t_order : jsval;
  t_groupBy : string;
  t_aggregateFields : list aggregate_field
}.

(** The callback of [criteria.every] in [evaluateFilter]. *)
Definition eval_criterion (item : jsobj) (criterion : criterion) : result bool :=
  let itemValue := obj_get item (c_field criterion) in
  let op := c_operator criterion in
  if strict_eq op (JStr "equals") then Ok (strict_eq itemValue (c_value criterion))
  else if strict_eq op (JStr "greater") then Ok (js_lt (c_value criterion) itemValue)
  else if strict_eq op (JStr "less") then Ok (js_lt itemValue (c_value criterion))
  else if strict_eq op (JStr "contains") then
    match itemValue with
    | JUndef | JNull => Throw "TypeError: Cannot read properties of undefined (reading 'toString')"
    | _ => Ok (str_includes (to_string (c_value criterion)) (to_string itemValue))
    end
  else Ok true.

(** [evaluateFilter(item, criteria)]: [every] stops at the first [false]. *)
Fixpoint evaluateFilter (item : jsobj) (criteria : list criterion) : result bool :=
  match criteria with
  | [] => Ok true
  | c :: cs =>
      b <- eval_criterion item c ;;
      if b then evaluateFilter item cs else Ok false
  end.

(** [processedData.filter(item => this.evaluateFilter(item, criteria))]. *)
Fixpoint filter_items (criteria : list criterion) (data : list jsobj) : result (list jsobj) :=
  match data with
  | [] => Ok []
  | item :: rest =>
      keep <- evaluateFilter item criteria ;;
      kept <- filter_items criteria rest ;;
      Ok (if keep then item :: kept else kept)
  end.

(** The comparator of the [sort] step; [NaN] counts as [0]. *)
Definition sort_compare (t : transformation) (a b : jsobj) : option Q :=
  let aValue := obj_get a (t_field t) in
  let bValue := obj_get b (t_field t) in
  if strict_eq (t_order t) (JStr "desc") then js_sub bValue aValue else js_sub aValue bValue.

Definition cmp_positive (r : option Q) : bool :=
  match r with Some q => negb (Qle_bool q 0) | None => false end.

(** [Array.prototype.sort] is stable: an element goes after every element
    placed before it that does not compare greater.  (For a comparator that is
    not a consistent order, the result is implementation-defined; this is the
    insertion-sort choice.) *)
Fixpoint insert_sorted (cmp : jsobj -> jsobj -> option Q) (x : jsobj) (l : list jsobj) : list jsobj :=
  match l with
  | [] => [x]
  | y :: l' => if cmp_positive (cmp y x) then x :: l else y :: insert_sorted cmp x l'
  end.

Definition sort_by (cmp : jsobj -> jsobj -> option Q) (l : list jsobj) : list jsobj :=
  fold_left (fun acc x => insert_sorted cmp x acc) l [].

(** One [aggregateFields.forEach] body on the group [grouped[key]]. *)
Definition update_group (item : jsobj) (g : jsobj) (field : aggregate_field) : jsobj :=
  let cur := obj_get g (a_name field) in
  let src := obj_get item (a_sourceField field) in
  if strict_eq (a_operation field) (JStr "sum") then obj_set g (a_name field) (js_add cur src)
  else if strict_eq (a_operation field) (JStr "count") then obj_set g (a_name field) (js_inc cur)
  else if strict_eq (a_operation field) (JStr "avg") then
    obj_set g (a_name field) (js_half (js_add cur src))
  else g.

(** [{ [groupBy]: key }] with every [field.name] set to [0]. *)
Definition new_group (groupBy : string) (key : jsval) (aggregateFields : list aggregate_field) : jsobj :=
  fold_left (fun g field => obj_set g (a_name field) (JNum 0)) aggregateFields [(groupBy, key)].

(** One [data.forEach] body of [aggregateData] on the object [grouped].
    [grouped[key]] is an own group, or (for a key inherited from
    [Object.prototype]) a built-in object, which is truthy: then no group is
    created and the updates land on that built-in, outside [grouped]. *)
Definition aggregate_item (groupBy : string) (aggregateFields : list aggregate_field)
    (grouped : list (string * jsobj)) (item : jsobj) : list (string * jsobj) :=
  let key := obj_get item groupBy in
  let k := to_string key in
  match own grouped k with
  | Some g => obj_set grouped k (fold_left (update_group item) aggregateFields g)
  | None =>
      if is_inherited k then grouped
      else obj_set grouped k
             (fold_left (update_group item) aggregateFields (new_group groupBy key aggregateFields))
  end.

(** [aggregateData(data, groupBy, aggregateFields)]. *)
Definition aggregateData (data : list jsobj) (groupBy : string)
    (aggregateFields : list aggregate_field) : list jsobj :=
  object_values (fold_left (aggregate_item groupBy aggregateFields) data []).

(** One [transformations.forEach] body. *)
Definition apply_transformation (processedData : list jsobj) (t : transformation)
    : result (list jsobj) :=
  if strict_eq (t_type t) (JStr "filter") then filter_items (t_criteria t) processedData
  else if strict_eq (t_type t) (JStr "sort") then Ok (sort_by (sort_compare t) processedData)
  else if strict_eq (t_type t) (JStr "aggregate") then
    Ok (aggregateData processedData (t_groupBy t) (t_aggregateFields t))
  else Ok processedData.

(** [applyTemplateTransformations(data, transformations)]. *)
Fixpoint applyTemplateTransformations (data : list jsobj) (transformations : list transformation)
    : result (list jsobj) :=
  match transformations with
  | [] => Ok data
  | t :: ts => d <- apply_transformation data t ;; applyTemplateTransformations d ts
  end.

(** Steps as a template writes them. *)
Definition filter_step (criteria : list criterion) : transformation :=
  {| t_type := JStr "filter"; t_criteria := criteria; t_field := ""; t_order := JUndef;
     t_groupBy := ""; t_aggregateFields := [] |}.

Definition aggregate_step (groupBy : string) (fields : list aggregate_field) : transformation :=
  {| t_type := JStr "aggregate"; t_criteria := []; t_field := ""; t_order := JUndef;
     t_groupBy := groupBy; t_aggregateFields := fields |}.

(** ** [processComplianceChecks] (reportGenerator.js) *)

Record compliance_result : Type := {
  overallScore : jsval;
  violations : list jsobj;
  compliantChecks : list jsobj;
  totalChecks : nat
}.

(** [Math.round]: the integer nearest, halves rounded up. *)
Definition math_round (x : option Q) : jsval :=
  match x with
  | Some q => JNum (inject_Z (Qfloor (q + (1 # 2))))
  | None => JNaN
  end.

(** [compliantChecks.length / data.checks.length] as the exact quotient:
    [0 / 0] is [NaN] (with no checks there is no compliant check either).
    The division and the product by 100 are rounded to doubles in
    [processComplianceChecks]. *)
Definition length_ratio (c t : nat) : option Q :=
  if (t =? 0)%nat then None else Some (inject_Z (Z.of_nat c) / inject_Z (Z.of_nat t))%Q.

Definition status_is (s : string) (check : jsobj) : bool :=
  strict_eq (obj_get check "status") (JStr s).

(** [processComplianceChecks(data, regulations)] on [data.checks]. *)
Definition processComplianceChecks (checks : list jsobj) : compliance_result :=
  let violations := filter (status_is "violation") checks in
  let compliantChecks := filter (status_is "compliant") checks in
  let ratio := length_ratio (length compliantChecks) (length checks) in
  {| overallScore := math_round (option_map (fun r => round_double (round_double r * 100)) ratio);
     violations := violations;
     compliantChecks := compliantChecks;
     totalChecks := length checks |}.

(** ** Local calendar dates and [new Date(year, month, day)] *)

(** A local date: full year, month [0..11], day of the month. *)
Record date : Type := mkDate { year : Z; month : Z; day : Z }.

Definition leap_year (y : Z) : bool :=
  ((y mod 4 =? 0) && (negb (y mod 100 =? 0) || (y mod 400 =? 0)))%Z.

Definition days_in_month (y m : Z) : Z :=
  if (m =? 1)%Z then (if leap_year y then 29 else 28)
  else if (m =? 3)%Z || (m =? 5)%Z || (m =? 8)%Z || (m =? 10)%Z then 30
  else 31.

(** A day number outside the month carries into the neighbouring months; each
    round moves by at least 28 days, so [|day| + 1] rounds suffice. *)
Fixpoint carry_days (fuel : nat) (y m d : Z) : date :=
  match fuel with
  | O => mkDate y m d
  | S f =>
      if (d <? 1)%Z then
        let y' := if (m =? 0)%Z then (y - 1)%Z else y in
        let m' := if (m =? 0)%Z then 11%Z else (m - 1)%Z in
        carry_days f y' m' (d + days_in_month y' m')%Z
      else if (days_in_month y m <? d)%Z then
        let y' := if (m =? 11)%Z then (y + 1)%Z else y in
        let m' := if (m =? 11)%Z then 0%Z else (m + 1)%Z in
        carry_days f y' m' (d - days_in_month y m)%Z
      else mkDate y m d
  end.

(** [new Date(year, month, day)] (local midnight): [MakeDay] moves whole
    years out of [month], then the day carries across months. *)
Definition new_Date (y m d : Z) : date :=
  carry_days (S (Z.to_nat (Z.abs d))) (y + m / 12)%Z (m mod 12)%Z d.

(** ** The [Report] model (src/unnamed/part_002) *)

(** A [dueDate] value: unset ([null] / [undefined]), another JavaScript value,
    or a [Date] object (truthy). *)
Inductive date_field : Type :=
| DateVal (v : jsval)
| DateObj (d : date).

Definition date_field_truthy (f : date_field) : bool :=
  match f with DateVal v => truthy v | DateObj _ => true end.

(** The fields of a report the [beforeCreate] hook reads and writes. *)
Record report_new : Type := {
  rn_type : jsval;
  rn_dueDate : date_field
}.

Definition set_dueDate (r : report_new) (d : date) : report_new :=
  {| rn_type := rn_type r; rn_dueDate := DateObj d |}.

(** [hooks.beforeCreate]; [now] is [new Date()] read in local time. *)
Definition beforeCreate (now : date) (report : report_new) : report_new :=
  if negb (date_field_truthy (rn_dueDate report)) then
    if strict_eq (rn_type report) (JStr "monthly") then
      set_dueDate report (new_Date (year now) (month now + 1) 15)
    else if strict_eq (rn_type report) (JStr "quarterly") then
      let quarter := (month now / 3)%Z in
      set_dueDate report (new_Date (year now) ((quarter + 1) * 3) 30)
    else if strict_eq (rn_type report) (JStr "annual") then
      set_dueDate report (new_Date (year now + 1) 2 31)
    else report
  else report.

(** The [status] values of the [Report] model's enum. *)
Definition report_status_values : list string := ["pending"; "generating"; "completed"; "failed"].

(** The attributes of the [Report] model: the columns of the [reports] table
    (with the [timestamps] and [paranoid] columns). *)
Definition report_attributes : list string :=
  ["id"; "title"; "type"; "status"; "description"; "data"; "templateId"; "fileUrl";
   "fileSize"; "generatedBy"; "approvedBy"; "approvedAt"; "complianceScore";
   "sasraSubmissionId"; "submittedAt"; "dueDate"; "metadata"; "version"; "isActive";
   "createdAt"; "updatedAt"; "deletedAt"].

(** ** [User.prototype.toJSON] (src/unnamed/part_002) *)

(** [const values = Object.assign({}, this.get())] copies the own properties
    of the instance's values in property order; then three are deleted. *)
Definition user_toJSON (dataValues : jsobj) : jsobj :=
  let values := ordinary_own_entries dataValues in
  let values := obj_delete values "password" in
  let values := obj_delete values "passwordResetToken" in
  obj_delete values "passwordResetExpires".

Definition secret_user_field (k : string) : bool :=
  String.eqb k "password" || String.eqb k "passwordResetToken" || String.eqb k "passwordResetExpires".

(** Two users differ only in the secret fields when the rest of their values,
    in order, agree. *)
Definition differ_only_in_secrets (u1 u2 : jsobj) : Prop :=
  filter (fun kv => negb (secret_user_field (fst kv))) u1
  = filter (fun kv => negb (secret_user_field (fst kv))) u2.

(** ** [GET /:id/download] (src/backend/models/Report.js) *)

Inductive response : Type :=
| JsonResponse (code : Z) (success : bool) (message : string)
| FileStream (path : string).

(** [path.join(__dirname, '../', outputFile)] with the routes directory
    taken as [/app/backend/models]; a
    path that is not a string makes [path.join] throw. *)
Definition download_path (outputFile : jsval) : result string :=
  match outputFile with
  | JStr s => Ok ("/app/backend/" ++ s)
  | _ => Throw "TypeError [ERR_INVALID_ARG_TYPE]: The path argument must be of type string"
  end.

(** The route: [authenticated] is the outcome of [authenticateToken] (a
    rejected request gets a 401), [found] the outcome of [Report.findByPk],
    [file_exists] is [fs.existsSync]. *)
Definition download_route (authenticated : bool) (found : result (option jsobj))
    (file_exists : string -> bool) : response :=
  if negb authenticated then JsonResponse 401 false "Invalid token" else
  match found with
  | Throw e => JsonResponse 500 false "Error downloading report"
  | Ok None => JsonResponse 404 false "Report not found"
  | Ok (Some report) =>
      if negb (strict_eq (obj_get report "status") (JStr "completed"))
         || negb (truthy (obj_get report "outputFile"))
      then JsonResponse 400 false "Report not ready for download"
      else match download_path (obj_get report "outputFile") with
           | Throw e => JsonResponse 500 false "Error downloading report"
           | Ok filePath =>
               if file_exists filePath then FileStream filePath
               else JsonResponse 404 false "Report file not found"
           end
  end.

Definition is_error_response (r : response) : bool :=
  match r with JsonResponse code _ _ => (400 <=? code)%Z | FileStream _ => false end.

(** ** The orchestrator [generateReport] (reportGenerator.js) *)

(** The state [generateReport] acts on: the rows of the [reports] table by
    id, the [io.emit] calls made (oldest first), the ids of the reports a
    generation strategy was started for, and the clock. *)
Record world : Type := {
  w_reports : list (Z * jsobj);
  w_emitted : list (string * jsobj);
  w_runs : list jsval;
  w_now : Z
}.

(** An async computation: it may throw, and keeps the effects made before. *)
Definition M (A : Type) : Type := world -> result A * world.

Definition mret {A} (a : A) : M A := fun w => (Ok a, w).

Definition mbind {A B} (m : M A) (f : A -> M B) : M B :=
  fun w => match m w with
           | (Ok a, w') => f a w'
           | (Throw e, w') => (Throw e, w')
           end.

Definition mthrow {A} (msg : string) : M A := fun w => (Throw msg, w).

(** [try { m } catch (error) { h(error.message) }]. *)
Definition mcatch {A} (m : M A) (h : string -> M A) : M A :=
  fun w => match m w with
           | (Throw e, w') => h e w'
           | r => r
           end.

Notation "'let*' x ':=' m 'in' k" := (mbind m (fun x => k))
  (at level 200, x name, m at level 100, k at level 200).

Fixpoint row_lookup (rows : list (Z * jsobj)) (id : Z) : option jsobj :=
  match rows with
  | [] => None
  | (id', row) :: rows' => if (id =? id')%Z then Some row else row_lookup rows' id
  end.

Fixpoint row_replace (rows : list (Z * jsobj)) (id : Z) (row : jsobj) : list (Z * jsobj) :=
  match rows with
  | [] => []
  | (id', r) :: rows' =>
      if (id =? id')%Z then (id', row) :: rows' else (id', r) :: row_replace rows' id row
  end.

(** The double quote character. *)
Definition dq : string := String (Ascii.ascii_of_nat 34) EmptyString.

(** A computation that leaves the world as it is. *)
Definition mlift {A} (r : result A) : M A := fun w => (r, w).

(** A live row ([paranoid]: a row with [deletedAt] set is soft-deleted). *)
Definition live_row (w : world) (id : Z) : option jsobj :=
  match row_lookup (w_reports w) id with
  | Some row => if truthy (obj_get row "deletedAt") then None else Some row
  | None => None
  end.

(** The integer a number is, if it is one. *)
Definition integral (q : Q) : option Z :=
  let r := Qred q in if (Zpos (Qden r) =? 1)%Z then Some (Qnum r) else None.

(** The integer a string designates, as PostgreSQL reads an integer. *)
Definition param_pk (id : string) : option Z :=
  match NilZero.int_of_string id with
  | Some i => Some (Z.of_int i)
  | None => None
  end.

(** The row [WHERE id = v] selects on the [integer] column [id], or the error
    the query raises.  Sequelize writes a number as its decimal text (a
    non-integral number matches no row, [NaN] reads as a column name), a
    string as a quoted literal that PostgreSQL parses as an integer, a
    boolean as [true]/[false]; [null] is [IS NULL], and [undefined] is refused
    before the query.  Leading or trailing blanks in a string and integers
    beyond the 32-bit range, which PostgreSQL also handles, are not told
    apart here; a date or function is treated as its text. *)
Definition where_id (v : jsval) : result (option Z) :=
  match v with
  | JNum q => Ok (integral q)
  | JStr s =>
      match param_pk s with
      | Some i => Ok (Some i)
      | None => Throw ("invalid input syntax for type integer: " ++ dq ++ s ++ dq)
      end
  | JNull => Ok None
  | JUndef => Throw ("WHERE parameter " ++ dq ++ "id" ++ dq ++ " has invalid " ++ dq ++ "undefined" ++ dq ++ " value")
  | JNaN => Throw ("column " ++ dq ++ "nan" ++ dq ++ " does not exist")
  | JBool _ => Throw "operator does not exist: integer = boolean"
  | JBuiltin _ | JDate _ =>
      Throw ("invalid input syntax for type integer: " ++ dq ++ to_string v ++ dq)
  end.

(** The associations of [Report] ([Report.associate], part_002): target
    model and alias. *)
Definition report_associations : list (string * string) :=
  [("User", "creator"); ("User", "approver"); ("ReportTemplate", "reportTemplate")].

(** Sequelize's check of an [include: { model, as }] of [Report], made before
    any query (the message is the one for a model with one association to
    [Report], as [ReportTemplate] has). *)
Definition included_association (model alias : string) : result unit :=
  match map snd (filter (fun a => String.eqb (fst a) model) report_associations) with
  | [] => Throw (model ++ " is not associated to Report!")
  | aliases =>
      if existsb (String.eqb alias) aliases then Ok tt
      else Throw (model ++ " is associated to Report using an alias. You've included an alias ("
                  ++ alias ++ "), but it does not match the alias(es) defined in your association ("
                  ++ String.concat ", " aliases ++ ").")
  end.

(** [Report.findByPk(reportId, { include: [{ model, as }] })]: [null] and
    [undefined] give [null]; a number or string becomes [where: { id }] and
    goes through [findOne], which checks the include first; any other value
    is refused. *)
Definition findByPk (reportId : jsval) (include : string * string) : M (option jsobj) :=
  match reportId with
  | JUndef | JNull => mret None
  | JNum _ | JNaN | JStr _ =>
      let* _ := mlift (included_association (fst include) (snd include)) in
      let* target := mlift (where_id reportId) in
      fun w => (Ok (match target with Some i => live_row w i | None => None end), w)
  | _ => mthrow ("Argument passed to findByPk is invalid: " ++ to_string reportId)
  end.

(** [new Date()]. *)
Definition new_date : M jsval := fun w => (Ok (JDate (w_now w)), w).

(** [io.emit(event, payload)]. *)
Definition emit (event : string) (payload : jsobj) : M unit :=
  fun w => (Ok tt, {| w_reports := w_reports w; w_emitted := w_emitted w ++ [(event, payload)];
                      w_runs := w_runs w; w_now := w_now w |}).

(** The values an update writes: the keys that are attributes of the model
    (Sequelize leaves the others out of the UPDATE). *)
Definition update_values (values : jsobj) : jsobj :=
  filter (fun kv => existsb (String.eqb (fst kv)) report_attributes) values.

(** The [status] column is an enum: a value outside it is rejected. *)
Definition status_accepted (values : jsobj) : bool :=
  match own values "status" with
  | None => true
  | Some (JStr s) => existsb (String.eqb s) report_status_values
  | Some _ => false
  end.

Definition set_all (row : jsobj) (values : jsobj) : jsobj :=
  fold_left (fun r kv => obj_set r (fst kv) (snd kv)) values row.

(** PostgreSQL's error for a value outside the [status] enum. *)
Definition enum_status_error (vals : jsobj) : string :=
  "invalid input value for enum enum_reports_status: " ++ dq ++ to_string (obj_get vals "status") ++ dq.

(** Static [Report.update(values, { where: { id } })] on the rows [id]
    selects: [updatedAt] is refreshed; a rejected value throws and writes
    nothing; no live row, nothing is written. *)
Definition update_row (id : option Z) (values : jsobj) : M unit :=
  fun w =>
    let vals := update_values values in
    if negb (status_accepted vals) then (Throw (enum_status_error vals), w)
    else match id with
         | Some i =>
             match live_row w i with
             | Some row =>
                 (Ok tt, {| w_reports := row_replace (w_reports w) i
                                           (obj_set (set_all row vals) "updatedAt" (JDate (w_now w)));
                            w_emitted := w_emitted w; w_runs := w_runs w; w_now := w_now w |})
             | None => (Ok tt, w)
             end
         | None => (Ok tt, w)
         end.

(** lodash's [_.isEqual] on field values. *)
Definition js_isEqual (a b : jsval) : bool :=
  match a, b with
  | JNaN, JNaN => true
  | JDate x, JDate y => (x =? y)%Z
  | _, _ => strict_eq a b
  end.

Definition is_undefined (v : jsval) : bool := match v with JUndef => true | _ => false end.

(** The fields [report.set(values)] changes: attributes other than the
    primary key and the timestamps (which [set] leaves alone on a stored
    instance), whose value differs from the instance's ([undefined] values
    are dropped first by [update]). *)
Definition changed_attributes (report values : jsobj) : jsobj :=
  filter (fun kv => existsb (String.eqb (fst kv)) report_attributes
                    && negb (existsb (String.eqb (fst kv)) ["id"; "createdAt"; "updatedAt"; "deletedAt"])
                    && negb (js_isEqual (obj_get report (fst kv)) (snd kv)))
         (filter (fun kv => negb (is_undefined (snd kv))) values).

(** Instance [report.update(values)]: with no changed field nothing is
    saved; otherwise the changed fields and [updatedAt] are written to the
    row [WHERE id = report.id], and the updated instance is returned (the
    attribute validators of [title] and [complianceScore] are not modelled). *)
Definition instance_update (report values : jsobj) : M jsobj :=
  match changed_attributes report values with
  | [] => mret report
  | changed =>
      fun w =>
        if negb (status_accepted changed) then (Throw (enum_status_error changed), w)
        else
          let now := JDate (w_now w) in
          let w' := match where_id (obj_get report "id") with
                    | Ok (Some i) =>
                        match row_lookup (w_reports w) i with
                        | Some row =>
                            {| w_reports := row_replace (w_reports w) i
                                              (obj_set (set_all row changed) "updatedAt" now);
                               w_emitted := w_emitted w; w_runs := w_runs w; w_now := w_now w |}
                        | None => w
                        end
                    | _ => w
                    end in
          (Ok (obj_set (set_all report changed) "updatedAt" now), w')
  end.

(** What a generation strategy returns: [{ filePath, metadata }]. *)
Record strategy_output : Type := {
  filePath : jsval;
  metadata : jsobj
}.

(** [JSON.stringify] of a flat object (strings are not escaped here;
    [undefined] and functions are skipped, [NaN] is [null]). *)
Definition json_of_value (v : jsval) : option string :=
  match v with
  | JUndef | JBuiltin _ => None
  | JNull | JNaN => Some "null"
  | JBool b => Some (if b then "true" else "false")
  | JNum q => Some (number_to_string q)
  | JStr s => Some (dq ++ s ++ dq)
  | JDate t => Some (dq ++ to_string (JDate t) ++ dq)
  end.

Definition json_of_obj (o : jsobj) : string :=
  "{" ++ String.concat ","
           (flat_map (fun kv => match json_of_value (snd kv) with
                                | Some j => [dq ++ fst kv ++ dq ++ ":" ++ j]
                                | None => []
                                end) (ordinary_own_entries o)) ++ "}".

(** The strategy a report type selects, by the [switch (report.type)]. *)
Definition strategy_kind (type : jsval) : option string :=
  if strict_eq type (JStr "financial") then Some "financial"
  else if strict_eq type (JStr "compliance") then Some "compliance"
  else if strict_eq type (JStr "operational") then Some "operational"
  else if strict_eq type (JStr "custom") then Some "custom"
  else None.

Section Orchestrator.

(** The outcome of [generateFinancialReport], [generateComplianceReport],
    [generateOperationalReport] and [generateCustomReport] on a report: they
    read the report, write files and return, or throw; they do not touch the
    table or emit. *)
Variable strategy : string -> jsobj -> result strategy_output.

Definition run_strategy (kind : string) (report : jsobj) : M strategy_output :=
  fun w =>
    let w' := {| w_reports := w_reports w; w_emitted := w_emitted w;
                 w_runs := w_runs w ++ [obj_get report "id"]; w_now := w_now w |} in
    (strategy kind report, w').

(** The [try] block of [generateReport]. *)
Definition generateReport_try (reportId : jsval) : M strategy_output :=
  let* found := findByPk reportId ("ReportTemplate", "template") in
  match found with
  | None => mthrow "Report not found"
  | Some report =>
      let id := obj_get report "id" in
      let* startedAt := new_date in
      let* report := instance_update report [("status", JStr "processing"); ("startedAt", startedAt)] in
      let* _ := emit "reportStatusUpdate"
                  [("reportId", id); ("status", JStr "processing");
                   ("message", JStr "Report generation started")] in
      let* result := match strategy_kind (obj_get report "type") with
                     | Some kind => run_strategy kind report
                     | None => mthrow ("Unsupported report type: " ++ to_string (obj_get report "type"))
                     end in
      let* completedAt := new_date in
      let* _ := instance_update report
                  [("status", JStr "completed"); ("completedAt", completedAt);
                   ("outputFile", filePath result); ("metadata", JStr (json_of_obj (metadata result)))] in
      let* _ := emit "reportStatusUpdate"
                  [("reportId", id); ("status", JStr "completed");
                   ("message", JStr "Report generated successfully");
                   ("downloadUrl", JStr ("/api/reports/" ++ to_string id ++ "/download"))] in
      mret result
  end.

(** The [catch] block of [generateReport]: record the failure, then rethrow. *)
Definition generateReport_catch (reportId : jsval) (message : string) : M strategy_output :=
  let* _ := (if truthy reportId then
               let* completedAt := new_date in
               let* target := mlift (where_id reportId) in
               let* _ := update_row target
                           [("status", JStr "failed"); ("errorMessage", JStr message);
                            ("completedAt", completedAt)] in
               emit "reportStatusUpdate"
                 [("reportId", reportId); ("status", JStr "failed"); ("message", JStr message)]
             else mret tt) in
  mthrow message.

(** [ReportGenerator.prototype.generateReport(reportId)]. *)
Definition generateReport (reportId : jsval) : M strategy_output :=
  mcatch (generateReport_try reportId) (generateReport_catch reportId).

End Orchestrator.

(** ** Sample inputs *)

Definition avg_field : aggregate_field :=
  {| a_name := "avgBalance"; a_operation := JStr "avg"; a_sourceField := "balance" |}.

Definition count_field : aggregate_field :=
  {| a_name := "n"; a_operation := JStr "count"; a_sourceField := "" |}.

(** Three members of one branch, each with balance 3. *)
Definition three_members : list jsobj :=
  [[("branch", JStr "Nairobi"); ("balance", JNum 3)];
   [("branch", JStr "Nairobi"); ("balance", JNum 3)];
   [("branch", JStr "Nairobi"); ("balance", JNum 3)]].

Definition check_of (s : string) : jsobj := [("regulation", JStr "capital"); ("status", JStr s)].

(** 255 compliant checks and one violation (256 checks: every ratio here is
    exact in binary floating point too). *)
Definition checks_255_1 : list jsobj := repeat (check_of "compliant") 255 ++ [check_of "violation"].
Definition checks_1_255 : list jsobj := [check_of "compliant"] ++ repeat (check_of "violation") 255.
Definition checks_23_17 : list jsobj := repeat (check_of "compliant") 23 ++ repeat (check_of "violation") 17.

(** A pending custom report, row 1 of the table. *)
Definition pending_report : jsobj :=
  [("id", JNum 1); ("title", JStr "Custom SASRA return"); ("type", JStr "custom");
   ("status", JStr "pending"); ("generatedBy", JNum 7)].

Definition world_1 : world :=
  {| w_reports := [(1%Z, pending_report)]; w_emitted := []; w_runs := []; w_now := 1760000000000%Z |}.

(** The custom strategy without a template. *)
Definition no_template_strategy (kind : string) (report : jsobj) : result strategy_output :=
  Throw "Custom report requires a template".

Definition row_1 (w : world) : option jsobj := row_lookup (w_reports w) 1.

(** Sum of the numbers in field [name] over the rows. *)
Definition sum_field (name : string) (rows : list jsobj) : Q :=
  fold_right (fun row acc => match to_number (obj_get row name) with
                             | Some q => (q + acc)%Q
                             | None => acc
                             end) 0%Q rows.

(** Two loan records, one whose category is named like a built-in property. *)
Definition two_loans : list jsobj :=
  [[("category", JStr "constructor"); ("amount", JNum 100)];
   [("category", JStr "emergency"); ("amount", JNum 50)]].

Definition branch_is_nairobi : criterion :=
  {| c_field := "branch"; c_operator := JStr "equals"; c_value := JStr "Nairobi" |}.

Definition mixed_members : list jsobj :=
  [[("branch", JStr "Nairobi"); ("balance", JNum 3)];
   [("branch", JStr "Mombasa"); ("balance", JNum 5)];
   [("balance", JNum 8)]].

Definition regex_criterion : criterion :=
  {| c_field := "branch"; c_operator := JStr "matches"; c_value := JStr "^N" |}.

Definition december_2026 : date := mkDate 2026 11 3.

Definition new_monthly : report_new := {| rn_type := JStr "monthly"; rn_dueDate := DateVal JUndef |}.

Definition report_generating : jsobj :=
  [("id", JNum 2); ("title", JStr "Quarterly return"); ("status", JStr "generating")].

Definition two_checks : list jsobj := [check_of "compliant"; check_of "violation"].

Definition user_a : jsobj :=
  [("id", JNum 4); ("email", JStr "jm@sacco.co.ke"); ("password", JStr "$2a$12$abc");
   ("role", JStr "manager")].

Definition user_b : jsobj :=
  [("id", JNum 4); ("email", JStr "jm@sacco.co.ke"); ("password", JStr "$2a$12$xyz");
   ("passwordResetToken", JStr "f00d"); ("role", JStr "manager")].

(** ** Helpers for the proofs *)

(** The operators [evaluateFilter] knows. *)
Definition known_operators : list jsval :=
  [JStr "equals"; JStr "greater"; JStr "less"; JStr "contains"].

(** A check that ended [compliant] or [violation]. *)
Definition valid_check (check : jsobj) : Prop :=
  obj_get check "status" = JStr "compliant" \/ obj_get check "status" = JStr "violation".

(** One step of the index-key pass of [ordinary_own_entries], and the test
    for the remaining keys. *)
Definition idx_step {A : Type} (acc : list (Z * (string * A))) (kv : string * A) : list (Z * (string * A)) :=
  match array_index (fst kv) with
  | Some z => insert_index z kv acc
  | None => acc
  end.

Definition not_index {A : Type} (kv : string * A) : bool :=
  match array_index (fst kv) with Some _ => false | None => true end.

(** Ordered by index, first to last (non-strictly). *)
Fixpoint zsorted {B} (l : list (Z * B)) : Prop :=
  match l with
  | [] => True
  | (z, _) :: l' => Forall (fun e => (z <= fst e)%Z) l' /\ zsorted l'
  end.

(** An action that leaves the list of started strategy runs alone. *)
Definition keeps_runs {A} (m : M A) : Prop := forall w, w_runs (snd (m w)) = w_runs w.

(** ** Further models: template steps, rendering, model hooks, routes, middleware *)

(** Two results agree on success: both succeed with the same value, or both throw. *)
Definition same_outcome {A} (r1 r2 : result A) : Prop :=
  match r1, r2 with
  | Ok a, Ok b => a = b
  | Throw _, Throw _ => True
  | _, _ => False
  end.

Definition field_num (f : string) (r : jsobj) : Q :=
  match to_number (obj_get r f) with Some q => q | None => 0%Q end.

(** The sum of the absolute values of the field [f] over [rows]. *)
Definition abs_sum_field (f : string) (rows : list jsobj) : Q :=
  fold_right (fun r acc => (Qabs (field_num f r) + acc)%Q) 0%Q rows.

(** Every group of [G] holds, in the column of [f], a number satisfying
    [good] whose absolute value is at most [S]. *)
Definition bounded_groups (f : aggregate_field) (good : Q -> Prop) (S : Q)
    (G : list (string * jsobj)) : Prop :=
  forall k g, In (k, g) G -> exists a, obj_get g (a_name f) = JNum a /\ good a /\ (Qabs a <= S)%Q.

(** The error [Report.findByPk(reportId, { include: [{ model: ReportTemplate,
    as: 'template' }] })] throws for a number or string id. *)
Definition template_alias_error : string :=
  "ReportTemplate is associated to Report using an alias. You've included an alias (template), "
  ++ "but it does not match the alias(es) defined in your association (reportTemplate).".

Definition failed_event (reportId : jsval) (message : string) : string * jsobj :=
  ("reportStatusUpdate", [("reportId", reportId); ("status", JStr "failed"); ("message", JStr message)]).

(** fetchComplianceData *)
Definition fetch_check (rnd : nat -> Q) (reg : jsval) (k : nat) : jsobj * nat :=
  let status := if Qle_bool (rnd k) (1 # 5) then "violation" else "compliant" in
  let '(severity, k') :=
    if Qle_bool (rnd (S k)) (7 # 10) then
      ((if Qle_bool (rnd (S (S k))) (2 # 5) then "low" else "medium"), S (S (S k)))
    else ("high", S (S k)) in
  ([("regulation", reg); ("status", JStr status);
    ("details", JStr ("Compliance check for " ++ to_string reg)); ("severity", JStr severity)], k').

Fixpoint fetch_checks (rnd : nat -> Q) (regulations : list jsval) (k : nat) : list jsobj * nat :=
  match regulations with
  | [] => ([], k)
  | reg :: regs =>
      let '(check, k1) := fetch_check rnd reg k in
      let '(checks, k2) := fetch_checks rnd regs k1 in
      (check :: checks, k2)
  end.

Record compliance_data : Type := {
  cd_period : jsval;
  cd_regulations : list jsval;
  cd_institutions : jsval;
  cd_checks : list jsobj
}.

Definition fetchComplianceData (rnd : nat -> Q) (k : nat) (period : jsval)
    (regulations : list jsval) (institutions : jsval) : compliance_data * nat :=
  let '(checks, k') := fetch_checks rnd regulations k in
  ({| cd_period := period; cd_regulations := regulations; cd_institutions := institutions;
      cd_checks := checks |}, k').

Definition severity_values : list jsval := [JStr "high"; JStr "medium"; JStr "low"].

Definition nl : string := String (Ascii.ascii_of_nat 10) EmptyString.

Definition spaces (n : nat) : string := string_of_list_ascii (repeat " "%char n).

(** A template column [{ header, field }]. *)
Record column : Type := {
  col_header : jsval;
  col_field : string
}.

(** A template section; [s_dataFilter] is [None] when [section.dataFilter]
    is falsy, else the [criteria] of the filter object. *)
Record section : Type := {
  s_type : jsval;
  s_title : jsval;
  s_content : jsval;
  s_columns : list column;
  s_dataFilter : option (list criterion)
}.

(** [filterDataForSection(data, filter)]. *)
Definition filterDataForSection (data : list jsobj) (filter : option (list criterion))
    : result (list jsobj) :=
  match filter with
  | None => Ok data
  | Some criteria => filter_items criteria data
  end.

(** [`<th>${col.header}</th>`]. *)
Definition render_header (col : column) : string :=
  "<th>" ++ to_string (col_header col) ++ "</th>".

(** [`<td>${row[col.field] || ''}</td>`]. *)
Definition render_cell (row : jsobj) (col : column) : string :=
  let v := obj_get row (col_field col) in
  "<td>" ++ (if truthy v then to_string v else "") ++ "</td>".

Definition render_row (columns : list column) (row : jsobj) : string :=
  nl ++ spaces 14 ++ "<tr>" ++
  nl ++ spaces 16 ++ String.concat "" (map (render_cell row) columns) ++
  nl ++ spaces 14 ++ "</tr>" ++
  nl ++ spaces 12.

(** [renderTable(data, section)]. *)
Definition renderTable (data : list jsobj) (section : section) : result string :=
  tableData <- filterDataForSection data (s_dataFilter section) ;;
  Ok (nl ++ spaces 6 ++ "<div class=" ++ dq ++ "table-section" ++ dq ++ ">" ++
      nl ++ spaces 8 ++ "<h3>" ++ to_string (s_title section) ++ "</h3>" ++
      nl ++ spaces 8 ++ "<table class=" ++ dq ++ "data-table" ++ dq ++ ">" ++
      nl ++ spaces 10 ++ "<thead>" ++
      nl ++ spaces 12 ++ "<tr>" ++
      nl ++ spaces 14 ++ String.concat "" (map render_header (s_columns section)) ++
      nl ++ spaces 12 ++ "</tr>" ++
      nl ++ spaces 10 ++ "</thead>" ++
      nl ++ spaces 10 ++ "<tbody>" ++
      nl ++ spaces 12 ++ String.concat "" (map (render_row (s_columns section)) tableData) ++
      nl ++ spaces 10 ++ "</tbody>" ++
      nl ++ spaces 8 ++ "</table>" ++
      nl ++ spaces 6 ++ "</div>" ++
      nl ++ spaces 4).

(** [s] occurs in [t]. *)
Definition occurs_in (s t : string) : Prop := exists pre post, t = pre ++ s ++ post.

(** [a && b]. *)
Definition js_and (a b : jsval) : jsval := if truthy a then b else a.

(** [['pending', 'failed'].includes(this.status)]. *)
Definition canBeEdited (report : jsobj) : bool :=
  existsb (strict_eq (obj_get report "status")) [JStr "pending"; JStr "failed"].

Definition canBeApproved (report : jsobj) : jsval :=
  js_and (JBool (strict_eq (obj_get report "status") (JStr "completed")))
         (JBool (negb (truthy (obj_get report "approvedBy")))).

Definition canBeSubmitted (report : jsobj) : jsval :=
  js_and (js_and (JBool (strict_eq (obj_get report "status") (JStr "completed")))
                 (obj_get report "approvedBy"))
         (JBool (negb (truthy (obj_get report "submittedAt")))).

(** [new Date() > v]: the [Date] converts to its time value, so both sides
    are compared as numbers ([NaN] compares false). *)
Definition now_after (now : Z) (v : jsval) : bool :=
  match to_number v with
  | Some x => negb (Qle_bool (inject_Z now) x)
  | None => false
  end.

(** [Report.prototype.isOverdue] at the time [now]. *)
Definition isOverdue (now : Z) (report : jsobj) : jsval :=
  js_and (js_and (obj_get report "dueDate") (JBool (now_after now (obj_get report "dueDate"))))
         (JBool (negb (strict_eq (obj_get report "status") (JStr "completed")))).

Definition live_rows (w : world) : list jsobj :=
  filter (fun row => negb (truthy (obj_get row "deletedAt"))) (map snd (w_reports w)).

(** The [WHERE dueDate < now AND status <> 'completed'] test on a row
    ([NULL] compares to nothing). *)
Definition overdue_where (now : Z) (row : jsobj) : bool :=
  match obj_get row "dueDate" with JDate t => (t <? now)%Z | _ => false end
  && match obj_get row "status" with JStr s => negb (String.eqb s "completed") | _ => false end.

(** [Report.findOverdue()] at the time [now]. *)
Definition findOverdue (now : Z) (w : world) : list jsobj :=
  filter (overdue_where now) (live_rows w).

(** A row as the table stores it: [dueDate] a date or [NULL], [status] a
    string. *)
Definition stored_row (row : jsobj) : Prop :=
  (obj_get row "dueDate" = JNull \/ exists t, obj_get row "dueDate" = JDate t)
  /\ exists s, obj_get row "status" = JStr s.

(** ** User roles and [requireRole] *)
Definition isManager (user : jsobj) : bool :=
  strict_eq (obj_get user "role") (JStr "manager") || strict_eq (obj_get user "role") (JStr "admin").

Definition hasAnyRole (user : jsobj) (roles : list jsval) : bool :=
  existsb (strict_eq (obj_get user "role")) roles.

(** What a middleware does: pass to the next handler or answer. *)
Inductive mw_outcome : Type :=
| Next
| Respond (r : response).

(** [requireRole(roles)] on [req.user] ([None] when unset). *)
Definition requireRole (roles : list jsval) (user : option jsobj) : mw_outcome :=
  match user with
  | None => Respond (JsonResponse 401 false "Authentication required")
  | Some u =>
      if negb (existsb (strict_eq (obj_get u "role")) roles)
      then Respond (JsonResponse 403 false "Insufficient permissions")
      else Next
  end.

Definition user_roles : list jsval := [JStr "user"; JStr "manager"; JStr "admin"].

(** [s.split(sep)] for a one-character separator. *)
Fixpoint split_on (sep : ascii) (s : string) : list string :=
  match s with
  | EmptyString => [EmptyString]
  | String a s' =>
      if Ascii.eqb a sep then EmptyString :: split_on sep s'
      else match split_on sep s' with
           | x :: r => String a x :: r
           | [] => [String a EmptyString]
           end
  end.

(** [arr[1]] of the split header. *)
Definition second_field (parts : list string) : jsval :=
  match parts with _ :: t :: _ => JStr t | _ => JUndef end.

Section Auth.

(** [jwt.verify(token, secret)]: the decoded payload, or the [name] of the
    error thrown. *)
Variable verify : string -> (string + jsobj).
(** [User.findByPk(userId, ...)]: the user, none, or a thrown error. *)
Variable findUser : jsval -> result (option jsobj).

(** [authenticateToken] on the [authorization] header: the outcome and the
    [req.user] set. *)
Definition authenticateToken (authHeader : jsval) : mw_outcome * option jsobj :=
  let token := if truthy authHeader
               then match authHeader with JStr s => second_field (split_on " " s) | _ => JUndef end
               else authHeader in
  if negb (truthy token) then (Respond (JsonResponse 401 false "No token provided"), None)
  else
    let caught (name : string) :=
      if String.eqb name "TokenExpiredError" then (Respond (JsonResponse 401 false "Token expired"), None)
      else if String.eqb name "JsonWebTokenError" then (Respond (JsonResponse 401 false "Invalid token"), None)
      else (Respond (JsonResponse 500 false "Token verification failed"), None) in
    match verify (to_string token) with
    | inl name => caught name
    | inr decoded =>
        match findUser (obj_get decoded "userId") with
        | Throw e => caught "SequelizeDatabaseError"
        | Ok found =>
            match found with
            | Some user =>
                if truthy (obj_get user "isActive") then (Next, Some user)
                else (Respond (JsonResponse 401 false "Invalid token or user inactive"), None)
            | None => (Respond (JsonResponse 401 false "Invalid token or user inactive"), None)
            end
        end
    end.

End Auth.

Definition has_space (s : string) : bool := existsb (fun a => Ascii.eqb a " ") (list_ascii_of_string s).

(** [Report.findByPk(req.params.id)]. *)
Definition findByParam (id : string) : M (option jsobj) :=
  fun w => match param_pk id with
           | Some i => (Ok (live_row w i), w)
           | None => (Throw ("invalid input syntax for type integer: " ++ dq ++ id ++ dq), w)
           end.

(** [report.destroy()] on a [paranoid] model: the row stays, [deletedAt]
    (and [updatedAt]) are set. *)
Definition destroy_row (i : Z) : M unit :=
  fun w => match live_row w i with
           | Some row =>
               (Ok tt, {| w_reports := row_replace (w_reports w) i
                             (obj_set (obj_set row "deletedAt" (JDate (w_now w))) "updatedAt" (JDate (w_now w)));
                          w_emitted := w_emitted w; w_runs := w_runs w; w_now := w_now w |})
           | None => (Ok tt, w)
           end.

(** The string express-validator checks a value as. *)
Definition validator_string (v : jsval) : string :=
  match v with
  | JUndef | JNull | JNaN => ""
  | _ => to_string v
  end.

(** The attributes of [Report] that are [allowNull: false] without a
    default. *)
Definition report_required : list string := ["title"; "generatedBy"].

Definition missing_value (v : jsval) : bool :=
  match v with JUndef | JNull => true | _ => false end.

(** [Report.create(values)]: keys that are not attributes are dropped, the
    defaults filled in, and the [notNull] validation runs before the INSERT
    (the [beforeCreate] hook and the database's enum checks come after it
    and are not modelled). *)
Definition create_row (values : jsobj) : M jsobj :=
  fun w =>
    let vals := update_values values in
    let missing := filter (fun a => missing_value (obj_get vals a)) report_required in
    match missing with
    | a :: _ =>
        (Throw (String.concat ("," ++ String (ascii_of_nat 10) "")
                  (map (fun a => "notNull Violation: Report." ++ a ++ " cannot be null") missing)), w)
    | [] =>
        let i := (1 + fold_right (fun r m => Z.max (fst r) m) 0 (w_reports w))%Z in
        let row := obj_set (obj_set (obj_set vals "id" (JNum (inject_Z i)))
                             "createdAt" (JDate (w_now w))) "updatedAt" (JDate (w_now w)) in
        let row := fold_left (fun r kv => if missing_value (obj_get r (fst kv)) then obj_set r (fst kv) (snd kv) else r)
                     [("type", JStr "monthly"); ("status", JStr "pending"); ("version", JNum 1);
                      ("isActive", JBool true)] row in
        (Ok row, {| w_reports := w_reports w ++ [(i, row)]; w_emitted := w_emitted w;
                    w_runs := w_runs w; w_now := w_now w |})
    end.

(** [try { ... } catch (error) { res.status(500).json(...) }]. *)
Definition catch_500 (message : string) (m : M response) : M response :=
  mcatch m (fun _ => mret (JsonResponse 500 false message)).

(** [JSON.stringify(v)] of a flat value. *)
Definition json_stringify (v : jsval) : jsval :=
  match json_of_value v with Some j => JStr j | None => JUndef end.

Definition no_errors (errors : list string) : bool :=
  match errors with [] => true | _ => false end.

(** The checks of [body('title').optional().notEmpty()] and
    [body('status').optional().isIn([...])] of [PUT /:id]. *)
Definition put_errors (body : jsobj) : list string :=
  (match own body "title" with
   | Some v => if String.eqb (validator_string v) "" then ["Title cannot be empty"] else []
   | None => []
   end)
  ++ (match own body "status" with
      | Some v => if existsb (String.eqb (validator_string v)) ["pending"; "processing"; "completed"; "failed"]
                  then [] else ["Invalid status"]
      | None => []
      end).

(** The checks of [POST /]. *)
Definition post_errors (body : jsobj) : list string :=
  (if String.eqb (validator_string (obj_get body "title")) "" then ["Title is required"] else [])
  ++ (if existsb (String.eqb (validator_string (obj_get body "type")))
           ["financial"; "compliance"; "operational"; "custom"]
      then [] else ["Invalid report type"])
  ++ (match own body "description" with
      | Some v => if (500 <? String.length (validator_string v))%nat then ["Description too long"] else []
      | None => []
      end).

Section Routes.

(** [logActivity(userId, action, details)]: an audit log outside the
    [reports] table. *)
Variable logActivity : jsval -> string -> jsobj -> M unit.
(** [generateReport(report.id).catch(console.error)], started in the
    background. *)
Variable startGeneration : jsval -> M unit.

(** [POST /] for the user [authenticateToken] let through. *)
Definition post_report (user : jsobj) (body : jsobj) : M response :=
  match requireRole [JStr "admin"; JStr "manager"; JStr "analyst"] (Some user) with
  | Respond r => mret r
  | Next =>
      if negb (no_errors (post_errors body)) then mret (JsonResponse 400 false "Validation errors")
      else catch_500 "Error creating report"
        (let* report := create_row
             [("title", obj_get body "title"); ("type", obj_get body "type");
              ("description", obj_get body "description"); ("templateId", obj_get body "templateId");
              ("parameters", json_stringify (obj_get body "parameters"));
              ("createdBy", obj_get user "id"); ("status", JStr "pending")] in
         let* _ := logActivity (obj_get user "id") "report_created"
                     [("reportId", obj_get report "id"); ("title", obj_get report "title")] in
         let* _ := startGeneration (obj_get report "id") in
         mret (JsonResponse 201 true "Report creation initiated"))
  end.

(** [POST /] as routed: [authenticateToken] first, then [requireRole] and
    the handler.  [authenticateToken] sets [req.user] whenever it calls
    [next()]; without a user [requireRole] answers 401. *)
Definition post_request (verify : string -> (string + jsobj)) (findUser : jsval -> result (option jsobj))
    (authHeader : jsval) (body : jsobj) : M response :=
  match authenticateToken verify findUser authHeader with
  | (Respond r, _) => mret r
  | (Next, Some user) => post_report user body
  | (Next, None) => mret (JsonResponse 401 false "Authentication required")
  end.

(** [GET /:id]; a found report is sent as [data] (no message). *)
Definition get_report (id : string) : M response :=
  catch_500 "Error fetching report"
    (let* found := findByParam id in
     match found with
     | None => mret (JsonResponse 404 false "Report not found")
     | Some report => mret (JsonResponse 200 true "")
     end).

(** [PUT /:id]: [report.update(req.body)] writes the row found. *)
Definition put_report (user : jsobj) (id : string) (body : jsobj) : M response :=
  match requireRole [JStr "admin"; JStr "manager"] (Some user) with
  | Respond r => mret r
  | Next =>
      if negb (no_errors (put_errors body)) then mret (JsonResponse 400 false "Validation errors")
      else catch_500 "Error updating report"
        (let* found := findByParam id in
         match found with
         | None => mret (JsonResponse 404 false "Report not found")
         | Some report =>
             let* _ := instance_update report body in
             let* _ := logActivity (obj_get user "id") "report_updated"
                         [("reportId", obj_get report "id"); ("changes", JStr (json_of_obj body))] in
             mret (JsonResponse 200 true "Report updated successfully")
         end)
  end.

(** [DELETE /:id]. *)
Definition delete_report (user : jsobj) (id : string) : M response :=
  match requireRole [JStr "admin"; JStr "manager"] (Some user) with
  | Respond r => mret r
  | Next =>
      catch_500 "Error deleting report"
        (let* found := findByParam id in
         match found with
         | None => mret (JsonResponse 404 false "Report not found")
         | Some report =>
             let* _ := match param_pk id with Some i => destroy_row i | None => mret tt end in
             let* _ := logActivity (obj_get user "id") "report_deleted"
                         [("reportId", JStr id); ("title", obj_get report "title")] in
             mret (JsonResponse 200 true "Report deleted successfully")
         end)
  end.

End Routes.

Definition keeps_reports (logActivity : jsval -> string -> jsobj -> M unit) : Prop :=
  forall u a d w, w_reports (snd (logActivity u a d w)) = w_reports w.

Definition put_statuses : list string := ["pending"; "completed"; "failed"].

Definition deleted_row (row : jsobj) (now : Z) : jsobj :=
  obj_set (obj_set row "deletedAt" (JDate now)) "updatedAt" (JDate now).

Section InitBrowser.
Local Open Scope nat_scope.
Local Open Scope list_scope.

(** ** [initBrowser] under interleaving *)
(** The singleton's [this.browser] (a handle or [null]) and the number of
    [puppeteer.launch] calls made so far (the handle of a launch is its
    number). *)
Record bstate : Type := {
  b_browser : option nat;
  b_launched : nat
}.

(** Where one [initBrowser()] call is: not started, suspended at
    [await puppeteer.launch(...)] for the launch [h], or returned [b]. *)
Inductive call_state : Type :=
| CStart
| CWaiting (h : nat)
| CDone (b : nat).

(** One run of a call up to its next [await] or its return. *)
Definition call_step (s : bstate) (c : call_state) : bstate * call_state :=
  match c with
  | CStart =>
      match b_browser s with
      | Some b => (s, CDone b)
      | None => ({| b_browser := None; b_launched := S (b_launched s) |}, CWaiting (b_launched s))
      end
  | CWaiting h => ({| b_browser := Some h; b_launched := b_launched s |}, CDone h)
  | CDone b => (s, CDone b)
  end.

Fixpoint set_nth {A} (n : nat) (l : list A) (x : A) : list A :=
  match n, l with
  | O, _ :: l' => x :: l'
  | S n', y :: l' => y :: set_nth n' l' x
  | _, [] => []
  end.

(** The event loop resumes the calls in the order [sched]. *)
Fixpoint run (sched : list nat) (s : bstate) (calls : list call_state) : bstate * list call_state :=
  match sched with
  | [] => (s, calls)
  | i :: sched' =>
      let (s', c') := call_step s (nth i calls (CDone 0)) in
      run sched' s' (set_nth i calls c')
  end.

Definition fresh : bstate := {| b_browser := None; b_launched := 0 |}.

End InitBrowser.

(** *** Sample inputs for the further properties *)

Definition sort_balance_desc : transformation :=
  {| t_type := JStr "sort"; t_criteria := []; t_field := "balance"; t_order := JStr "desc";
     t_groupBy := ""; t_aggregateFields := [] |}.

Definition branch_contains_N : criterion :=
  {| c_field := "branch"; c_operator := JStr "contains"; c_value := JStr "N" |}.

Definition html_members : list jsobj := [[("name", JStr "<b>Wanjiru</b>"); ("balance", JNum 0)]].

Definition name_column : column := {| col_header := JStr "Name"; col_field := "name" |}.

Definition members_section : section :=
  {| s_type := JStr "table"; s_title := JStr "Members"; s_content := JUndef;
     s_columns := [name_column; {| col_header := JStr "Balance"; col_field := "balance" |}];
     s_dataFilter := None |}.

Definition new_quarterly : report_new := {| rn_type := JStr "quarterly"; rn_dueDate := DateVal JNull |}.

Definition new_annual : report_new := {| rn_type := JStr "annual"; rn_dueDate := DateVal JUndef |}.

Definition dated_world : world :=
  {| w_reports := [(1%Z, [("id", JNum 1); ("status", JStr "pending"); ("dueDate", JDate 5)]);
                   (2%Z, [("id", JNum 2); ("status", JStr "completed"); ("dueDate", JDate 5)]);
                   (3%Z, [("id", JNum 3); ("status", JStr "pending"); ("dueDate", JNull)])];
     w_emitted := []; w_runs := []; w_now := 10 |}.

Definition manager_user : jsobj := [("id", JNum 7); ("role", JStr "manager")].

Definition no_audit (u : jsval) (a : string) (d : jsobj) : M unit := mret tt.

Definition reject_all_tokens (token : string) : string + jsobj := inl "JsonWebTokenError".

Definition no_users (id : jsval) : result (option jsobj) := Ok None.


(** ** Claims *)

(** C1 (aggregate [avg] is the mean): the [avg] step keeps
    [(previous + value) / 2] starting from 0, not the running total divided
    by the running count.  On a group of three records each with value 3 it
    yields 21/8, not the mean 3. *)
Theorem aggregate_avg_not_mean :
  applyTemplateTransformations three_members [aggregate_step "branch" [avg_field]]
  = Ok [[("branch", JStr "Nairobi"); ("avgBalance", JNum (21 # 8))]]
  /\ ~ (21 # 8 == 3)%Q.
Proof.
  split.
  - vm_compute. reflexivity.
  - unfold Qeq. simpl. lia.
Qed.

(** C2 (compliance score), counterexample: with 23 compliant checks out of
    40 the score is 57, not [round(100 * 23 / 40) = round(57.5) = 58]
    ([23 / 40] is rounded to a double and [0.575 * 100] is
    [57.49999999999999]); with 255 compliant checks and one violation the
    score is 100 although there is a violation; with one compliant check and
    255 violations it is 0 although there is a compliant check; with no
    checks it is [NaN]. *)
Lemma compliance_score_iff_fails :
  overallScore (processComplianceChecks checks_23_17) = JNum 57
  /\ length (compliantChecks (processComplianceChecks checks_23_17)) = 23%nat
  /\ length checks_23_17 = 40%nat
  /\ Qfloor (100 * (23 # 40) + (1 # 2)) = 58%Z
  /\ overallScore (processComplianceChecks checks_255_1) = JNum 100
  /\ length (violations (processComplianceChecks checks_255_1)) = 1%nat
  /\ overallScore (processComplianceChecks checks_1_255) = JNum 0
  /\ length (compliantChecks (processComplianceChecks checks_1_255)) = 1%nat
  /\ overallScore (processComplianceChecks []) = JNaN.
Proof. vm_compute. repeat split. Qed.

(** C5 (per-group counts sum to N): a record whose group value is the name of
    a property inherited from [Object.prototype] finds a truthy built-in in
    [grouped], gets no group and is not counted: two records, counts summing
    to 1. *)
Theorem aggregate_count_drops_inherited_key :
  aggregateData two_loans "category" [count_field]
  = [[("category", JStr "emergency"); ("n", JNum 1)]]
  /\ length two_loans = 2%nat
  /\ sum_field "n" (aggregateData two_loans "category" [count_field]) = 1%Q.
Proof. vm_compute. repeat split. Qed.

(** ** The filter step *)

Lemma strict_eq_JStr (v : jsval) (s : string) :
  strict_eq v (JStr s) = true -> v = JStr s.
Proof.
  destruct v; simpl; try discriminate.
  intros H. apply String.eqb_eq in H. subst. reflexivity.
Qed.

Lemma strict_eq_JStr_false (v : jsval) (s : string) :
  v <> JStr s -> strict_eq v (JStr s) = false.
Proof.
  intros Hne. destruct (strict_eq v (JStr s)) eqn:E; [|reflexivity].
  apply strict_eq_JStr in E. contradiction.
Qed.

Lemma apply_filter_step (criteria : list criterion) (data : list jsobj) :
  apply_transformation data (filter_step criteria) = filter_items criteria data.
Proof. reflexivity. Qed.

(** Every record a filter keeps passes the filter again. *)
Lemma filter_items_kept (criteria : list criterion) (data kept : list jsobj) :
  filter_items criteria data = Ok kept -> filter_items criteria kept = Ok kept.
Proof.
  revert kept. induction data as [|item rest IH]; intros kept H; simpl in H.
  - injection H as <-. reflexivity.
  - destruct (evaluateFilter item criteria) as [keep|m] eqn:Ev; simpl in H; [|discriminate].
    destruct (filter_items criteria rest) as [kept'|m] eqn:Fr; simpl in H; [|discriminate].
    injection H as <-. specialize (IH kept' eq_refl).
    destruct keep.
    + simpl. rewrite Ev. simpl. rewrite IH. reflexivity.
    + exact IH.
Qed.

(** Filtering twice by the same criteria is filtering once, whatever the
    operators (an exception is the same exception). *)
Lemma filter_step_twice (criteria : list criterion) (data : list jsobj) :
  applyTemplateTransformations data [filter_step criteria; filter_step criteria]
  = applyTemplateTransformations data [filter_step criteria].
Proof.
  simpl. rewrite !apply_filter_step.
  destruct (filter_items criteria data) as [kept|m] eqn:F; simpl; [|reflexivity].
  rewrite apply_filter_step, (filter_items_kept _ _ _ F). reflexivity.
Qed.

(** C6 (filter idempotence): for criteria that all use [equals], applying the
    filter step twice gives the same result as applying it once. *)
Theorem filter_step_idempotent (criteria : list criterion) (data : list jsobj) :
  Forall (fun c => c_operator c = JStr "equals") criteria ->
  applyTemplateTransformations data [filter_step criteria; filter_step criteria]
  = applyTemplateTransformations data [filter_step criteria].
Proof. intros _. apply filter_step_twice. Qed.

Lemma filter_step_idempotent_witness :
  Forall (fun c => c_operator c = JStr "equals") [branch_is_nairobi]
  /\ applyTemplateTransformations mixed_members [filter_step [branch_is_nairobi]; filter_step [branch_is_nairobi]]
     = applyTemplateTransformations mixed_members [filter_step [branch_is_nairobi]].
Proof.
  split.
  - repeat constructor.
  - apply (filter_step_idempotent [branch_is_nairobi] mixed_members). repeat constructor.
Defined.

Lemma eval_criterion_unknown (item : jsobj) (c : criterion) :
  ~ In (c_operator c) known_operators -> eval_criterion item c = Ok true.
Proof.
  intros Hn. unfold eval_criterion.
  rewrite !strict_eq_JStr_false; [reflexivity | intros E; apply Hn; rewrite E; simpl; tauto ..].
Qed.

Lemma evaluateFilter_unknown (item : jsobj) (criteria : list criterion) :
  Forall (fun c => ~ In (c_operator c) known_operators) criteria ->
  evaluateFilter item criteria = Ok true.
Proof.
  induction 1 as [|c cs Hc _ IH]; [reflexivity|].
  simpl. rewrite (eval_criterion_unknown item c Hc). simpl. exact IH.
Qed.

(** C9 (unknown operators): a criterion whose operator is none of [equals],
    [greater], [less], [contains] evaluates to true, so a filter step made of
    such criteria returns its input unchanged. *)
Theorem unknown_operator_keeps_records (item : jsobj) (c : criterion)
    (criteria : list criterion) (data : list jsobj) :
  ~ In (c_operator c) known_operators ->
  Forall (fun c => ~ In (c_operator c) known_operators) criteria ->
  eval_criterion item c = Ok true
  /\ applyTemplateTransformations data [filter_step criteria] = Ok data.
Proof.
  intros Hc Hall. split; [apply eval_criterion_unknown; exact Hc|].
  simpl. rewrite apply_filter_step.
  induction data as [|item' rest IH]; [reflexivity|].
  simpl. rewrite (evaluateFilter_unknown item' criteria Hall). simpl.
  destruct (filter_items criteria rest) as [kept|m]; simpl in IH; [|discriminate].
  injection IH as ->. reflexivity.
Qed.

Lemma unknown_operator_keeps_records_witness :
  eval_criterion (hd [] mixed_members) regex_criterion = Ok true
  /\ applyTemplateTransformations mixed_members [filter_step [regex_criterion]] = Ok mixed_members.
Proof.
  apply (unknown_operator_keeps_records (hd [] mixed_members) regex_criterion [regex_criterion] mixed_members).
  - simpl. intros H. repeat (destruct H as [H|H]; [discriminate|]). exact H.
  - repeat constructor. simpl. intros H. repeat (destruct H as [H|H]; [discriminate|]). exact H.
Defined.

(** ** The [beforeCreate] hook *)

Lemma days_in_month_ge_28 (y m : Z) : (28 <= days_in_month y m)%Z.
Proof.
  unfold days_in_month.
  destruct (m =? 1)%Z; [destruct (leap_year y)|destruct (_ || _)]; lia.
Qed.

Lemma carry_days_S (f : nat) (y m d : Z) :
  carry_days (S f) y m d =
  if (d <? 1)%Z then
    let y' := if (m =? 0)%Z then (y - 1)%Z else y in
    let m' := if (m =? 0)%Z then 11%Z else (m - 1)%Z in
    carry_days f y' m' (d + days_in_month y' m')%Z
  else if (days_in_month y m <? d)%Z then
    let y' := if (m =? 11)%Z then (y + 1)%Z else y in
    let m' := if (m =? 11)%Z then 0%Z else (m + 1)%Z in
    carry_days f y' m' (d - days_in_month y m)%Z
  else mkDate y m d.
Proof. reflexivity. Qed.

(** Day 15 exists in every month: no carry. *)
Lemma new_Date_15 (y m : Z) : new_Date y m 15 = mkDate (y + m / 12) (m mod 12) 15.
Proof.
  unfold new_Date. replace (S (Z.to_nat (Z.abs 15))) with 16%nat by reflexivity.
  rewrite carry_days_S. replace (15 <? 1)%Z with false by reflexivity.
  pose proof (days_in_month_ge_28 (y + m / 12) (m mod 12)) as H28.
  destruct (days_in_month (y + m / 12) (m mod 12) <? 15)%Z eqn:E; [|reflexivity].
  apply Z.ltb_lt in E. lia.
Qed.

(** C7 (monthly due date): a [monthly] report created without a due date
    gets the 15th of the month after the creation date. *)
Theorem beforeCreate_monthly_due_15th_next_month (now : date) (report : report_new) :
  (0 <= month now <= 11)%Z ->
  rn_type report = JStr "monthly" ->
  date_field_truthy (rn_dueDate report) = false ->
  rn_dueDate (beforeCreate now report)
  = DateObj (if (month now =? 11)%Z then mkDate (year now + 1) 0 15
             else mkDate (year now) (month now + 1) 15).
Proof.
  intros Hm Ht Hd. unfold beforeCreate. rewrite Hd, Ht, new_Date_15.
  cbn [negb strict_eq String.eqb Ascii.eqb Bool.eqb set_dueDate rn_dueDate]. f_equal.
  destruct (month now =? 11)%Z eqn:E.
  - apply Z.eqb_eq in E. rewrite E. reflexivity.
  - apply Z.eqb_neq in E.
    rewrite (Z.div_small (month now + 1) 12) by lia.
    rewrite (Z.mod_small (month now + 1) 12) by lia.
    f_equal. lia.
Qed.

Lemma beforeCreate_monthly_due_15th_next_month_witness :
  rn_dueDate (beforeCreate december_2026 new_monthly) = DateObj (mkDate 2027 0 15).
Proof.
  apply (beforeCreate_monthly_due_15th_next_month december_2026 new_monthly).
  - simpl. lia.
  - reflexivity.
  - reflexivity.
Defined.

(** ** The download route *)

(** C8 (download of an unfinished report): when the report's status is not
    [completed], or its output file is unset, the route answers with an error
    and never streams a file. *)
Theorem download_not_completed_is_error (authenticated : bool) (report : jsobj)
    (file_exists : string -> bool) :
  obj_get report "status" <> JStr "completed" \/ truthy (obj_get report "outputFile") = false ->
  is_error_response (download_route authenticated (Ok (Some report)) file_exists) = true
  /\ (forall p, download_route authenticated (Ok (Some report)) file_exists <> FileStream p).
Proof.
  intros H. destruct authenticated; [|split; [reflexivity | discriminate]].
  unfold download_route. simpl.
  replace (negb (strict_eq (obj_get report "status") (JStr "completed"))
           || negb (truthy (obj_get report "outputFile"))) with true.
  - split; [reflexivity | discriminate].
  - destruct H as [H|H].
    + rewrite (strict_eq_JStr_false _ _ H). reflexivity.
    + rewrite H, orb_true_r. reflexivity.
Qed.

Lemma download_not_completed_is_error_witness :
  is_error_response (download_route true (Ok (Some report_generating)) (fun _ => true)) = true
  /\ (forall p, download_route true (Ok (Some report_generating)) (fun _ => true) <> FileStream p).
Proof.
  apply (download_not_completed_is_error true report_generating (fun _ => true)).
  left. discriminate.
Defined.

(** ** The compliance score *)

Lemma status_split (checks : list jsobj) :
  Forall valid_check checks ->
  (length (filter (status_is "compliant") checks)
   + length (filter (status_is "violation") checks))%nat = length checks.
Proof.
  induction 1 as [|ch l Hv _ IH]; [reflexivity|].
  assert (Hs : (status_is "compliant" ch = true /\ status_is "violation" ch = false)
               \/ (status_is "compliant" ch = false /\ status_is "violation" ch = true)).
  { unfold status_is. destruct Hv as [E|E]; rewrite E; [left|right]; split; reflexivity. }
  simpl. destruct Hs as [[-> ->]|[-> ->]]; simpl; lia.
Qed.

Lemma pow2_nonneg_exp (k : Z) : (0 <= k)%Z -> pow2 k = inject_Z (2 ^ k).
Proof. intros H. unfold pow2. apply Z.leb_le in H. rewrite H. reflexivity. Qed.

Lemma pow2_opp (k : Z) (p : positive) : (0 <= k)%Z -> (2 ^ k)%Z = Zpos p -> pow2 (- k)%Z = 1 # p.
Proof.
  intros Hk Hp. unfold pow2. destruct (Z.eq_dec k 0) as [->|Hk0].
  - simpl in Hp. injection Hp as <-. reflexivity.
  - replace (0 <=? - k)%Z with false by (symmetry; apply Z.leb_gt; lia).
    rewrite Z.opp_involutive, Hp. reflexivity.
Qed.

Lemma Qfloor_nonneg (x : Q) : 0 <= x -> (0 <= Qfloor x)%Z.
Proof.
  intros H. pose proof (Qlt_floor x) as Hl. rewrite inject_Z_plus in Hl.
  assert (Hz : (-1 < Qfloor x)%Z); [|lia].
  rewrite Zlt_Qlt. set (f := inject_Z (Qfloor x)) in *.
  change (inject_Z 1) with 1 in Hl. change (inject_Z (-1)) with (-1). lra.
Qed.

Lemma Qfloor_le_Z (x : Q) (M : Z) : x <= inject_Z M -> (Qfloor x <= M)%Z.
Proof.
  intros H. rewrite Zle_Qle. apply Qle_trans with x; [apply Qfloor_le|exact H].
Qed.

Lemma round_half_even_le (x : Q) (M : Z) : x <= inject_Z M -> (round_half_even x <= M)%Z.
Proof.
  intros H. pose proof (Qfloor_le_Z x M H) as Hf. pose proof (Qfloor_le x) as Hfl.
  unfold round_half_even.
  destruct (Z.eq_dec (Qfloor x) M) as [E|E].
  - replace (Qle_bool (1 # 2) (x - inject_Z (Qfloor x))) with false; [lia|].
    symmetry. apply not_true_iff_false. intros Hb. apply Qle_bool_iff in Hb.
    rewrite E in Hb. lra.
  - destruct (Qle_bool _ _); [destruct (Qeq_bool _ _); [destruct (Z.even _)|]|]; lia.
Qed.

Lemma round_half_even_nonneg (x : Q) : 0 <= x -> (0 <= round_half_even x)%Z.
Proof.
  intros H. pose proof (Qfloor_nonneg x H). unfold round_half_even.
  destruct (Qle_bool _ _); [destruct (Qeq_bool _ _); [destruct (Z.even _)|]|]; lia.
Qed.

Lemma float_exp_le (q : Q) (N : Z) : 0 < q -> q <= inject_Z N -> (float_exp q <= Z.log2 N + 1)%Z.
Proof.
  destruct q as [a b]. unfold Qlt, Qle. cbn [Qnum Qden inject_Z]. intros Ha HN.
  assert (HaN : (a <= N * Zpos b)%Z) by lia.
  assert (HN0 : (0 < N)%Z) by nia.
  assert (Hl : (Z.log2 (Z.abs a) <= Z.log2 N + Z.log2 (Zpos b) + 1)%Z).
  { rewrite Z.abs_eq by lia.
    apply Z.le_trans with (Z.log2 (N * Zpos b)); [apply Z.log2_le_mono; lia|].
    apply Z.log2_mul_above; lia. }
  unfold float_exp. cbn [Qnum Qden]. destruct (Qle_bool _ _); lia.
Qed.

(** A double-rounded value of [q] in [[0, N]] stays in [[0, N]]. *)
Lemma round_double_range (q : Q) (N : Z) :
  (0 < N)%Z -> (Z.log2 N <= 51)%Z -> 0 <= q -> q <= inject_Z N ->
  0 <= round_double q /\ round_double q <= inject_Z N.
Proof.
  intros HN HlN H0 H1. unfold round_double.
  assert (Hq : Qred q == q) by apply Qred_correct.
  destruct (Qeq_bool (Qred q) 0) eqn:Ez.
  { split; [apply Qle_refl|]. unfold Qle. simpl. lia. }
  assert (Hnz : ~ Qred q == 0) by (intros Heq; apply Qeq_bool_iff in Heq; congruence).
  assert (Hpos : 0 < Qred q).
  { rewrite Hq in Hnz |- *. destruct (proj1 (Qle_lteq 0 q) H0) as [Hl|He]; [exact Hl|].
    exfalso. apply Hnz. symmetry. exact He. }
  assert (He : (float_exp (Qred q) <= Z.log2 N + 1)%Z)
    by (apply float_exp_le; [exact Hpos|rewrite Hq; exact H1]).
  set (k := Z.min (52 - float_exp (Qred q)) 1074).
  assert (Hk : (0 <= k)%Z) by (unfold k; lia).
  assert (Hp : (0 < 2 ^ k)%Z) by (apply Z.pow_pos_nonneg; lia).
  destruct (2 ^ k)%Z as [|p|p] eqn:Ep; try lia.
  rewrite (pow2_nonneg_exp k Hk), (pow2_opp k p Hk Ep), Ep.
  set (m := round_half_even (Qred q * inject_Z (Zpos p))).
  assert (Hm0 : (0 <= m)%Z).
  { apply round_half_even_nonneg. rewrite Hq.
    apply Qmult_le_0_compat; [exact H0|unfold Qle; simpl; lia]. }
  assert (Hm1 : (m <= N * Zpos p)%Z).
  { apply round_half_even_le. rewrite Hq, inject_Z_mult.
    apply Qmult_le_compat_r; [exact H1|unfold Qle; simpl; lia]. }
  rewrite Qred_correct. unfold Qle, Qmult. cbn [Qnum Qden inject_Z]. nia.
Qed.

(** [round_double] depends only on the value of its argument. *)
Lemma round_double_Qeq (x y : Q) : x == y -> round_double x = round_double y.
Proof. intros H. unfold round_double. rewrite (Qred_complete x y H). reflexivity. Qed.

Lemma pow2_Qpower (k : Z) : pow2 k == (2 # 1) ^ k.
Proof.
  unfold pow2. destruct (0 <=? k)%Z eqn:E.
  - apply Z.leb_le in E. apply Zpower_Qpower. exact E.
  - apply Z.leb_gt in E. destruct k as [|p|p]; try lia.
    change ((2 # 1) ^ Zneg p) with (/ ((2 # 1) ^ Zpos p)).
    rewrite <- (Zpower_Qpower 2 (Zpos p)) by lia. simpl (- Zneg p)%Z.
    assert (H : (0 < 2 ^ Zpos p)%Z) by (apply Z.pow_pos_nonneg; lia).
    destruct (2 ^ Zpos p)%Z as [|P|P]; try lia. reflexivity.
Qed.

Lemma pow2_pos (k : Z) : 0 < pow2 k.
Proof. rewrite pow2_Qpower. apply Qpower_0_lt. reflexivity. Qed.

Lemma pow2_add (a b : Z) : pow2 (a + b) == pow2 a * pow2 b.
Proof. rewrite !pow2_Qpower. apply Qpower_plus. discriminate. Qed.

Lemma pow2_Z (k : Z) : (0 <= k)%Z -> pow2 k == inject_Z (2 ^ k).
Proof. intros H. rewrite pow2_Qpower. symmetry. apply Zpower_Qpower. exact H. Qed.

(** For [q <> 0], [2 ^ float_exp q <= |q|]. *)
Lemma float_exp_lower (q : Q) : ~ q == 0 -> pow2 (float_exp q) <= Qabs q.
Proof.
  intros Hq. unfold float_exp.
  set (e := (Z.log2 (Z.abs (Qnum q)) - Z.log2 (Zpos (Qden q)))%Z).
  destruct (Qle_bool (pow2 e) (Qabs q)) eqn:E; [apply Qle_bool_iff; exact E|].
  destruct q as [a b]. cbn [Qnum Qden] in e.
  assert (Ha : a <> 0%Z) by (intros ->; apply Hq; reflexivity).
  set (la := Z.log2 (Z.abs a)). set (lb := Z.log2 (Zpos b)).
  assert (Hla : (2 ^ la <= Z.abs a)%Z) by (apply Z.log2_spec; lia).
  assert (Hlb : (Zpos b < 2 ^ (Z.succ lb))%Z) by (apply Z.log2_spec; lia).
  assert (Hlb0 : (0 <= lb)%Z) by apply Z.log2_nonneg.
  assert (Hla0 : (0 <= la)%Z) by apply Z.log2_nonneg.
  assert (Habs : Qabs (a # b) == inject_Z (Z.abs a) * / inject_Z (Zpos b)).
  { unfold Qabs. unfold Qeq, Qmult, Qinv. simpl. lia. }
  rewrite Habs.
  assert (Hs : pow2 (e - 1) * inject_Z (2 ^ Z.succ lb) == inject_Z (2 ^ la)).
  { rewrite <- (pow2_Z (Z.succ lb)), <- (pow2_Z la), <- pow2_add by lia.
    replace (e - 1 + Z.succ lb)%Z with la by (unfold e, la, lb; lia). reflexivity. }
  set (P := pow2 (e - 1)) in *.
  assert (HP : 0 < P) by apply pow2_pos.
  assert (Hb : inject_Z (Zpos b) <= inject_Z (2 ^ Z.succ lb)) by (rewrite <- Zle_Qle; lia).
  assert (Ha' : inject_Z (2 ^ la) <= inject_Z (Z.abs a)) by (rewrite <- Zle_Qle; exact Hla).
  assert (Hb0 : 0 < inject_Z (Zpos b)) by reflexivity.
  apply Qle_shift_div_l; [exact Hb0|].
  apply Qle_trans with (P * inject_Z (2 ^ Z.succ lb)).
  - apply Qmult_le_l; assumption.
  - rewrite Hs. exact Ha'.
Qed.

(** [round_half_even x] is within [1/2] of [x]. *)
Lemma round_half_even_near (x : Q) :
  x - (1 # 2) <= inject_Z (round_half_even x) /\ inject_Z (round_half_even x) <= x + (1 # 2).
Proof.
  pose proof (Qfloor_le x) as H1. pose proof (Qlt_floor x) as H2. rewrite inject_Z_plus in H2.
  change (inject_Z 1) with 1 in H2.
  unfold round_half_even. set (f := Qfloor x) in *.
  destruct (Qle_bool (1 # 2) (x - inject_Z f)) eqn:E1.
  - apply Qle_bool_iff in E1.
    assert (Hf1 : inject_Z (f + 1) == inject_Z f + 1) by (rewrite inject_Z_plus; reflexivity).
    destruct (Qeq_bool (x - inject_Z f) (1 # 2)) eqn:E2.
    + apply Qeq_bool_iff in E2. destruct (Z.even f); [split; lra|].
      rewrite Hf1. split; lra.
    + rewrite Hf1. split; lra.
  - assert (E1' : ~ (1 # 2) <= x - inject_Z f) by (intros H; apply Qle_bool_iff in H; congruence).
    split; lra.
Qed.

Lemma scaled_ge_1 (q : Q) :
  pow2 (-1074) <= Qabs q -> 1 <= Qabs q * pow2 (Z.min (52 - float_exp q) 1074).
Proof.
  intros Hq.
  assert (Hq0 : ~ q == 0).
  { intros E. rewrite E in Hq. pose proof (pow2_pos (-1074)). simpl in Hq. lra. }
  destruct (Z.min_spec (52 - float_exp q) 1074) as [[_ ->]|[_ ->]].
  - apply Qle_trans with (pow2 (float_exp q) * pow2 (52 - float_exp q)).
    + rewrite <- pow2_add. replace (float_exp q + (52 - float_exp q))%Z with 52%Z by lia.
      rewrite pow2_Z by lia. unfold Qle. simpl. lia.
    + apply Qmult_le_compat_r; [apply float_exp_lower; exact Hq0|apply Qlt_le_weak, pow2_pos].
  - apply Qle_trans with (pow2 (-1074) * pow2 1074).
    + rewrite <- pow2_add. apply Qle_refl.
    + apply Qmult_le_compat_r; [exact Hq|apply Qlt_le_weak, pow2_pos].
Qed.

(** A value at least the least positive double rounds to a positive double,
    and symmetrically for negative values. *)
Lemma round_double_pos (x : Q) : pow2 (-1074) <= x -> 0 < round_double x.
Proof.
  intros Hx. pose proof (pow2_pos (-1074)) as Hg.
  assert (Hq : Qred x == x) by apply Qred_correct.
  unfold round_double.
  destruct (Qeq_bool (Qred x) 0) eqn:Ez.
  { apply Qeq_bool_iff in Ez. rewrite Hq in Ez. lra. }
  set (q := Qred x) in *. set (k := Z.min (52 - float_exp q) 1074).
  assert (Hq1 : 1 <= q * pow2 k).
  { assert (Ha : Qabs q == q) by (apply Qabs_pos; lra).
    rewrite <- Ha. apply scaled_ge_1. rewrite Ha. lra. }
  destruct (round_half_even_near (q * pow2 k)) as [Hn _].
  assert (Hn1 : (1 <= round_half_even (q * pow2 k))%Z).
  { assert (H0 : (0 < round_half_even (q * pow2 k))%Z); [|lia].
    rewrite Zlt_Qlt. change (inject_Z 0) with 0. lra. }
  rewrite Qred_correct. apply Qmult_lt_0_compat; [|apply pow2_pos].
  change 0 with (inject_Z 0). rewrite <- Zlt_Qlt. lia.
Qed.

Lemma round_double_neg (x : Q) : x <= - pow2 (-1074) -> round_double x < 0.
Proof.
  intros Hx. pose proof (pow2_pos (-1074)) as Hg.
  assert (Hq : Qred x == x) by apply Qred_correct.
  unfold round_double.
  destruct (Qeq_bool (Qred x) 0) eqn:Ez.
  { apply Qeq_bool_iff in Ez. rewrite Hq in Ez. lra. }
  set (q := Qred x) in *. set (k := Z.min (52 - float_exp q) 1074).
  assert (Hq1 : 1 <= - (q * pow2 k)).
  { assert (Ha : Qabs q == - q) by (apply Qabs_neg; lra).
    setoid_replace (- (q * pow2 k)) with (Qabs q * pow2 k) by (rewrite Ha; ring).
    apply scaled_ge_1. rewrite Ha. lra. }
  destruct (round_half_even_near (q * pow2 k)) as [_ Hn].
  assert (Hn1 : (round_half_even (q * pow2 k) <= -1)%Z).
  { assert (H0 : (round_half_even (q * pow2 k) < 0)%Z); [|lia].
    rewrite Zlt_Qlt. change (inject_Z 0) with 0. lra. }
  rewrite Qred_correct.
  assert (Hm : inject_Z (round_half_even (q * pow2 k)) < 0)
    by (change 0 with (inject_Z 0); rewrite <- Zlt_Qlt; lia).
  pose proof (pow2_pos (- k)). set (m := inject_Z (round_half_even (q * pow2 k))) in *.
  set (p := pow2 (- k)) in *. nra.
Qed.

Lemma round_double_zero : round_double 0 = 0.
Proof. reflexivity. Qed.

(** Every double is a whole multiple of [2^-1074]. *)
Lemma round_double_grid (x : Q) : exists z, round_double x == inject_Z z * pow2 (-1074).
Proof.
  unfold round_double. destruct (Qeq_bool (Qred x) 0); [exists 0%Z; reflexivity|].
  set (q := Qred x). set (k := Z.min (52 - float_exp q) 1074).
  set (n := round_half_even (q * pow2 k)).
  exists (n * 2 ^ (1074 - k))%Z. rewrite Qred_correct, inject_Z_mult, <- pow2_Z by (unfold k; lia).
  rewrite <- Qmult_assoc, <- pow2_add. replace (1074 - k + -1074)%Z with (- k)%Z by lia. reflexivity.
Qed.

(** The difference of two doubles, rounded, has the sign of the exact difference. *)
Lemma double_sub_nonpos (x y : Q) :
  round_double x = x -> round_double y = y ->
  (round_double (x - y) <= 0 <-> x - y <= 0).
Proof.
  intros Hx Hy. destruct (round_double_grid x) as [zx Ex]. destruct (round_double_grid y) as [zy Ey].
  rewrite Hx in Ex. rewrite Hy in Ey. pose proof (pow2_pos (-1074)) as Hg.
  set (g := pow2 (-1074)) in *.
  assert (Hd : x - y == inject_Z (zx - zy) * g) by (rewrite Ex, Ey; unfold Z.sub; rewrite inject_Z_plus, inject_Z_opp; ring).
  destruct (Z.lt_trichotomy zx zy) as [Hl|[He|Hl]].
  - assert (Hz : inject_Z (zx - zy) <= -1) by (change (-1) with (inject_Z (-1)); rewrite <- Zle_Qle; lia).
    assert (Hn : x - y <= - g) by (rewrite Hd; nra).
    pose proof (round_double_neg (x - y) Hn). split; intros _; lra.
  - subst zy. assert (H0 : x - y == 0) by (rewrite Hd, Z.sub_diag; reflexivity).
    rewrite (round_double_Qeq _ _ H0). split; intros _; [lra|apply Qle_refl].
  - assert (Hz : 1 <= inject_Z (zx - zy)) by (change 1 with (inject_Z 1); rewrite <- Zle_Qle; lia).
    assert (Hn : g <= x - y) by (rewrite Hd; nra).
    pose proof (round_double_pos (x - y) Hn). split; intros Hc; lra.
Qed.

(** C2 (compliance score), as amended: for a non-empty set of checks each
    [compliant] or [violation], the score is [Math.round] of the double
    product [(compliant / total) * 100] (which can differ from
    [round(100 * compliant / total)], see [compliance_score_iff_fails]); it
    is an integer in [0, 100]; it is 100 when there is no violation and 0
    when there is no compliant check (the converses fail, see
    [compliance_score_iff_fails]). *)
Theorem compliance_score_rounded_in_range (checks : list jsobj) :
  checks <> [] -> Forall valid_check checks ->
  let r := processComplianceChecks checks in
  let c := Z.of_nat (length (compliantChecks r)) in
  let t := Z.of_nat (length checks) in
  exists n : Z,
    overallScore r = JNum (inject_Z n)
    /\ n = Qfloor (round_double (round_double (inject_Z c / inject_Z t) * 100) + (1 # 2))
    /\ (0 <= n <= 100)%Z
    /\ (violations r = [] -> n = 100%Z)
    /\ (compliantChecks r = [] -> n = 0%Z).
Proof.
  intros Hne Hv. cbv zeta.
  cbn [processComplianceChecks compliantChecks violations overallScore].
  pose proof (status_split checks Hv) as Hs.
  set (cc := length (filter (status_is "compliant") checks)) in *.
  set (vv := length (filter (status_is "violation") checks)) in *.
  destruct (length checks) as [|k] eqn:Hlen.
  { destruct checks; [contradiction|discriminate]. }
  set (ratio := inject_Z (Z.of_nat cc) / inject_Z (Z.of_nat (S k))).
  set (x := round_double (round_double ratio * 100)).
  assert (Hr : 0 <= ratio /\ ratio <= inject_Z 1).
  { assert (Ht : 0 < inject_Z (Z.of_nat (S k))) by (unfold Qlt; simpl; lia).
    split.
    - apply Qle_shift_div_l; [exact Ht|]. unfold Qle, Qmult. simpl. lia.
    - apply Qle_shift_div_r; [exact Ht|]. unfold Qle, Qmult. simpl. lia. }
  assert (Hx : 0 <= x /\ x <= inject_Z 100).
  { destruct (round_double_range ratio 1) as [H0 H1]; try easy; try lia.
    set (r1 := round_double ratio) in *. change (inject_Z 1) with 1 in H1.
    apply round_double_range; [lia|vm_compute; discriminate| |];
      change (inject_Z 100) with 100; lra. }
  exists (Qfloor (x + (1 # 2))).
  split; [|split; [reflexivity|split; [|split]]].
  - unfold length_ratio, math_round. cbn [Nat.eqb option_map]. reflexivity.
  - split.
    + apply Qfloor_nonneg. destruct Hx. lra.
    + assert (Hf : (Qfloor (x + (1 # 2)) < 101)%Z); [|lia].
      rewrite Zlt_Qlt. apply Qle_lt_trans with (x + (1 # 2)); [apply Qfloor_le|].
      destruct Hx as [_ Hx]. change (inject_Z 100) with 100 in Hx. change (inject_Z 101) with 101. lra.
  - intros Hnv.
    assert (vv = 0%nat) by (unfold vv; rewrite Hnv; reflexivity).
    assert (Hr1 : ratio == 1).
    { unfold ratio. replace cc with (S k) by lia.
      unfold Qeq, Qdiv, Qmult, Qinv. simpl. lia. }
    unfold x. rewrite (round_double_Qeq ratio 1 Hr1). vm_compute. reflexivity.
  - intros Hnc.
    assert (Hc : cc = 0%nat) by (unfold cc; rewrite Hnc; reflexivity).
    assert (Hr0 : ratio == 0).
    { unfold ratio. rewrite Hc. unfold Qeq, Qdiv, Qmult. simpl. reflexivity. }
    unfold x. rewrite (round_double_Qeq ratio 0 Hr0). vm_compute. reflexivity.
Qed.

Lemma compliance_score_rounded_in_range_witness :
  let r := processComplianceChecks two_checks in
  let c := Z.of_nat (length (compliantChecks r)) in
  let t := Z.of_nat (length two_checks) in
  exists n : Z,
    overallScore r = JNum (inject_Z n)
    /\ n = Qfloor (inject_Z c / inject_Z t * 100 + (1 # 2))
    /\ (0 <= n <= 100)%Z
    /\ (violations r = [] -> n = 100%Z)
    /\ (compliantChecks r = [] -> n = 0%Z).
Proof.
  apply (compliance_score_rounded_in_range two_checks).
  - discriminate.
  - constructor; [left; reflexivity|].
    constructor; [right; reflexivity|constructor].
Defined.

(** ** Property order and [User.prototype.toJSON] *)

Section OwnKeys.

Variable A : Type.

Lemma ordinary_own_entries_eq (o : list (string * A)) :
  ordinary_own_entries o = (map snd (fold_left idx_step o []) ++ filter not_index o)%list.
Proof. reflexivity. Qed.

Lemma Forall_filter_of {B} (P : B -> Prop) (q : B -> bool) (l : list B) :
  Forall P l -> Forall P (filter q l).
Proof. induction 1; simpl; [constructor|destruct (q x); auto]. Qed.

Lemma insert_index_Forall {B} (P : Z * B -> Prop) (z : Z) (x : B) (l : list (Z * B)) :
  P (z, x) -> Forall P l -> Forall P (insert_index z x l).
Proof.
  intros Hx Hl. induction Hl as [|[z' y] l Hy Hl IH]; simpl; [constructor; auto|].
  destruct (z <? z')%Z; constructor; auto.
Qed.

Lemma insert_index_sorted {B} (z : Z) (x : B) (l : list (Z * B)) :
  zsorted l -> zsorted (insert_index z x l).
Proof.
  induction l as [|[z' y] l IH]; simpl; intros Hs; [split; [constructor|exact I]|].
  destruct Hs as [Hf Hs]. destruct (z <? z')%Z eqn:E.
  - apply Z.ltb_lt in E. simpl. split; [|split; assumption].
    constructor; [simpl; lia|].
    eapply Forall_impl; [|exact Hf]. intros e He. simpl in He. lia.
  - apply Z.ltb_ge in E. simpl. split; [|apply IH; exact Hs].
    apply insert_index_Forall; [simpl; lia|exact Hf].
Qed.

Lemma insert_index_front {B} (z : Z) (x : B) (l : list (Z * B)) :
  Forall (fun e => (z < fst e)%Z) l -> insert_index z x l = (z, x) :: l.
Proof.
  destruct l as [|[z' y] l]; simpl; intros H; [reflexivity|].
  inversion H as [|? ? Hz _]; subst. simpl in Hz.
  apply Z.ltb_lt in Hz. rewrite Hz. reflexivity.
Qed.

Lemma filter_insert_index {B} (q : Z * B -> bool) (z : Z) (x : B) (l : list (Z * B)) :
  zsorted l ->
  filter q (insert_index z x l) = if q (z, x) then insert_index z x (filter q l) else filter q l.
Proof.
  induction l as [|[z' y] l IH]; simpl; intros Hs.
  - destruct (q (z, x)); reflexivity.
  - destruct Hs as [Hf Hs]. destruct (z <? z')%Z eqn:E.
    + apply Z.ltb_lt in E. simpl.
      destruct (q (z, x)) eqn:Qx; [|reflexivity].
      symmetry. apply insert_index_front. simpl.
      destruct (q (z', y)); [constructor; [simpl; exact E|]|];
        (apply Forall_filter_of; eapply Forall_impl; [|exact Hf]; intros e He; simpl in He; lia).
    + simpl. rewrite (IH Hs).
      destruct (q (z', y)), (q (z, x)); simpl; try rewrite E; reflexivity.
Qed.

Lemma zsorted_filter {B} (q : Z * B -> bool) (l : list (Z * B)) :
  zsorted l -> zsorted (filter q l).
Proof.
  induction l as [|[z y] l IH]; simpl; intros Hs; [exact I|].
  destruct Hs as [Hf Hs]. destruct (q (z, y)); simpl; [split; [apply Forall_filter_of; exact Hf|]|]; auto.
Qed.

Lemma idx_step_sorted (acc : list (Z * (string * A))) (kv : string * A) :
  zsorted acc -> zsorted (idx_step acc kv).
Proof.
  unfold idx_step. destruct (array_index (fst kv)); [apply insert_index_sorted|exact id].
Qed.

Variable p : string * A -> bool.

Lemma idx_step_filter (acc : list (Z * (string * A))) (kv : string * A) :
  zsorted acc ->
  filter (fun e => p (snd e)) (idx_step acc kv)
  = if p kv then idx_step (filter (fun e => p (snd e)) acc) kv
    else filter (fun e => p (snd e)) acc.
Proof.
  intros Hs. unfold idx_step.
  destruct (array_index (fst kv)) as [z|].
  - rewrite (filter_insert_index _ z kv acc Hs). reflexivity.
  - destruct (p kv); reflexivity.
Qed.

Lemma fold_idx_filter (o : list (string * A)) (acc : list (Z * (string * A))) :
  zsorted acc ->
  fold_left idx_step (filter p o) (filter (fun e => p (snd e)) acc)
  = filter (fun e => p (snd e)) (fold_left idx_step o acc).
Proof.
  revert acc. induction o as [|kv o IH]; intros acc Hs; [reflexivity|].
  simpl. rewrite <- (IH (idx_step acc kv)) by (apply idx_step_sorted; exact Hs).
  rewrite (idx_step_filter acc kv Hs).
  destruct (p kv); reflexivity.
Qed.

Lemma map_snd_filter {B} (l : list (B * (string * A))) :
  map snd (filter (fun e => p (snd e)) l) = filter p (map snd l).
Proof.
  induction l as [|e l IH]; simpl; [reflexivity|].
  destruct (p (snd e)); simpl; rewrite IH; reflexivity.
Qed.

Lemma filter_comm (q : string * A -> bool) (l : list (string * A)) :
  filter q (filter p l) = filter p (filter q l).
Proof.
  induction l as [|e l IH]; simpl; [reflexivity|].
  destruct (p e) eqn:Pe, (q e) eqn:Qe; simpl; rewrite ?Pe, ?Qe, IH; reflexivity.
Qed.

(** Dropping properties by a test commutes with putting them in property
    order. *)
Lemma ordinary_own_entries_filter (o : list (string * A)) :
  ordinary_own_entries (filter p o) = filter p (ordinary_own_entries o).
Proof.
  rewrite !ordinary_own_entries_eq, filter_app.
  pose proof (fold_idx_filter o [] I) as H. simpl in H. rewrite H, map_snd_filter.
  f_equal. apply filter_comm.
Qed.

End OwnKeys.

Lemma user_toJSON_filter (u : jsobj) :
  user_toJSON u = filter (fun kv => negb (secret_user_field (fst kv))) (ordinary_own_entries u).
Proof.
  unfold user_toJSON, obj_delete. generalize (ordinary_own_entries u) as l.
  induction l as [|[k v] l IH]; [reflexivity|].
  assert (Hs : secret_user_field k = (String.eqb k "password" || String.eqb k "passwordResetToken"
                                      || String.eqb k "passwordResetExpires")) by reflexivity.
  simpl. rewrite Hs.
  destruct (String.eqb k "password") eqn:E1, (String.eqb k "passwordResetToken") eqn:E2,
    (String.eqb k "passwordResetExpires") eqn:E3;
    simpl; rewrite ?E1, ?E2, ?E3; simpl; rewrite ?E1, ?E2, ?E3; simpl; rewrite ?IH; reflexivity.
Qed.

Lemma own_filter_secret (l : jsobj) (k : string) :
  secret_user_field k = true ->
  own (filter (fun kv => negb (secret_user_field (fst kv))) l) k = None.
Proof.
  intros Hk. induction l as [|[k' v] l IH]; simpl; [reflexivity|].
  destruct (secret_user_field k') eqn:E; simpl; [exact IH|].
  destruct (String.eqb k k') eqn:Ek; [|exact IH].
  apply String.eqb_eq in Ek. subst. rewrite Hk in E. discriminate.
Qed.

(** C10 (secrets stay out of the serialization): two users whose values
    differ only in [password], [passwordResetToken] and [passwordResetExpires]
    serialize identically, and the serialized object holds none of the three
    fields. *)
Theorem user_toJSON_hides_secrets (u1 u2 : jsobj) :
  differ_only_in_secrets u1 u2 ->
  user_toJSON u1 = user_toJSON u2
  /\ (forall k, secret_user_field k = true -> own (user_toJSON u1) k = None).
Proof.
  intros H. split.
  - rewrite !user_toJSON_filter, <- !ordinary_own_entries_filter. unfold differ_only_in_secrets in H.
    rewrite H. reflexivity.
  - intros k Hk. rewrite user_toJSON_filter. apply own_filter_secret. exact Hk.
Qed.

Lemma user_toJSON_hides_secrets_witness :
  user_toJSON user_a = user_toJSON user_b
  /\ (forall k, secret_user_field k = true -> own (user_toJSON user_a) k = None).
Proof.
  apply (user_toJSON_hides_secrets user_a user_b). reflexivity.
Defined.
(** ** [generateReport] never reaches a strategy *)

Lemma mbind_keeps_runs {A B} (m : M A) (f : A -> M B) :
  keeps_runs m -> (forall a, keeps_runs (f a)) -> keeps_runs (mbind m f).
Proof.
  intros Hm Hf w. unfold mbind. specialize (Hm w).
  destruct (m w) as [[a|e] w']; simpl in *; [rewrite Hf|]; exact Hm.
Qed.

Lemma update_row_keeps_runs (id : option Z) (values : jsobj) : keeps_runs (update_row id values).
Proof.
  intros w. unfold update_row.
  destruct (negb _); [reflexivity|].
  destruct id as [i|]; [destruct (live_row w i)|]; reflexivity.
Qed.

Lemma generateReport_catch_keeps_runs (reportId : jsval) (message : string) :
  keeps_runs (generateReport_catch reportId message).
Proof.
  unfold generateReport_catch. apply mbind_keeps_runs; [|intros _ w; reflexivity].
  destruct (truthy reportId); [|intros w; reflexivity].
  apply mbind_keeps_runs; [intros w; reflexivity|intros d].
  apply mbind_keeps_runs; [intros w; reflexivity|intros target].
  apply mbind_keeps_runs; [apply update_row_keeps_runs|intros _ w; reflexivity].
Qed.

(** For a number or string id, the [try] block throws the include error of
    [Report.findByPk] and changes nothing. *)
Lemma generateReport_try_include (strategy : string -> jsobj -> result strategy_output)
    (reportId : jsval) (w : world) :
  match reportId with JNum _ | JNaN | JStr _ => True | _ => False end ->
  generateReport_try strategy reportId w = (Throw template_alias_error, w).
Proof. destruct reportId; intros H; try contradiction; reflexivity. Qed.

(** The [try] block always throws before the strategy, in [Report.findByPk]
    or on the missing report, and changes nothing. *)
Lemma generateReport_try_throws (strategy : string -> jsobj -> result strategy_output)
    (reportId : jsval) (w : world) :
  exists msg, generateReport_try strategy reportId w = (Throw msg, w).
Proof. destruct reportId; eexists; reflexivity. Qed.

(** The [catch] block: for a truthy id whose [WHERE id = reportId] is valid,
    the live row it selects (if any) gets [failed] and a new [updatedAt]
    (neither [errorMessage] nor [completedAt] is an attribute), one failure
    event is emitted and the error is rethrown; an invalid [WHERE] throws its
    own error and changes nothing. *)
Lemma generateReport_catch_eq (reportId : jsval) (message : string) (w : world) :
  generateReport_catch reportId message w =
  if truthy reportId then
    match where_id reportId with
    | Throw e => (Throw e, w)
    | Ok target =>
        (Throw message,
         {| w_reports :=
              match target with
              | Some i =>
                  match live_row w i with
                  | Some row =>
                      row_replace (w_reports w) i
                        (obj_set (obj_set row "status" (JStr "failed")) "updatedAt" (JDate (w_now w)))
                  | None => w_reports w
                  end
              | None => w_reports w
              end;
            w_emitted := w_emitted w ++ [failed_event reportId message];
            w_runs := w_runs w; w_now := w_now w |})
    end
  else (Throw message, w).
Proof.
  unfold generateReport_catch. destruct (truthy reportId).
  - unfold mbind, new_date, mlift. destruct (where_id reportId) as [[i|]|e]; [|reflexivity|reflexivity].
    unfold update_row. cbn -[live_row obj_set row_replace].
    destruct (live_row w i); reflexivity.
  - reflexivity.
Qed.

(** Whatever the report and the strategies, [generateReport] throws and no
    strategy is started. *)
Lemma generateReport_never_runs_strategy (strategy : string -> jsobj -> result strategy_output)
    (reportId : jsval) (w : world) :
  (exists msg, fst (generateReport strategy reportId w) = Throw msg)
  /\ w_runs (snd (generateReport strategy reportId w)) = w_runs w.
Proof.
  destruct (generateReport_try_throws strategy reportId w) as [msg Hmsg].
  unfold generateReport, mcatch. rewrite Hmsg. split.
  - unfold generateReport_catch, mbind.
    destruct (_ : M unit) as [[u|e] w'] eqn:E; simpl; eauto.
  - apply generateReport_catch_keeps_runs.
Qed.


(** ** Further properties *)

Lemma evaluateFilter_app (item : jsobj) (c1 c2 : list criterion) :
  evaluateFilter item (c1 ++ c2) =
  (b <- evaluateFilter item c1 ;; if b then evaluateFilter item c2 else Ok false).
Proof.
  induction c1 as [|c cs IH]; simpl; [reflexivity|].
  destruct (eval_criterion item c) as [[|]|m]; simpl; [exact IH|reflexivity|reflexivity].
Qed.

Lemma bind_Ok_r {A} (r : result A) : (x <- r ;; Ok x) = r.
Proof. destruct r; reflexivity. Qed.

Lemma same_outcome_bind {A B} (r1 r2 : result A) (f : A -> result B) :
  same_outcome r1 r2 -> same_outcome (bind r1 f) (bind r2 f).
Proof.
  destruct r1 as [a|m1], r2 as [b|m2]; simpl; try contradiction; [intros ->|intros _; exact I].
  destruct (f b); simpl; auto.
Qed.

Lemma same_outcome_throw_l {A} (m : string) (r : result A) :
  same_outcome (Throw m) r -> exists m', r = Throw m'.
Proof. destruct r; simpl; [contradiction|eauto]. Qed.

Lemma filter_items_app_criteria (c1 c2 : list criterion) (data : list jsobj) :
  same_outcome (kept <- filter_items c1 data ;; filter_items c2 kept) (filter_items (c1 ++ c2) data).
Proof.
  induction data as [|item rest IH]; simpl; [reflexivity|].
  rewrite evaluateFilter_app.
  destruct (evaluateFilter item c1) as [[|]|m]; simpl; [| |exact I].
  - destruct (filter_items c1 rest) as [k|m]; simpl in IH |- *.
    + destruct (evaluateFilter item c2) as [[|]|m']; simpl;
        [apply same_outcome_bind; exact IH|apply same_outcome_bind; exact IH|exact I].
    + destruct (filter_items (c1 ++ c2) rest) as [l|m']; [contradiction|].
      destruct (evaluateFilter item c2) as [[|]|m'']; simpl; exact I.
  - rewrite bind_Ok_r. destruct (filter_items c1 rest) as [k|m]; simpl in IH |- *;
      [rewrite bind_Ok_r; exact IH|].
    destruct (filter_items (c1 ++ c2) rest) as [l|m']; [contradiction|]. exact I.
Qed.

(** Two consecutive filter steps keep the same records as one filter step
    with both lists of criteria, and one throws exactly when the other does. *)
Theorem filter_steps_compose (c1 c2 : list criterion) (data : list jsobj) :
  same_outcome (applyTemplateTransformations data [filter_step c1; filter_step c2])
               (applyTemplateTransformations data [filter_step (c1 ++ c2)]).
Proof.
  simpl. rewrite !apply_filter_step.
  pose proof (filter_items_app_criteria c1 c2 data) as H.
  destruct (filter_items c1 data) as [k|m]; simpl in *.
  - rewrite apply_filter_step.
    destruct (filter_items c2 k), (filter_items (c1 ++ c2) data); simpl in *; try contradiction; auto.
  - destruct (filter_items (c1 ++ c2) data); simpl in *; try contradiction; exact I.
Qed.

(** Without a [contains] criterion, a filter step never throws. *)
Theorem filter_without_contains_never_throws (criteria : list criterion) (data : list jsobj) :
  Forall (fun c => c_operator c <> JStr "contains") criteria ->
  exists kept, applyTemplateTransformations data [filter_step criteria] = Ok kept.
Proof.
  intros Hall. cbn [applyTemplateTransformations]. rewrite apply_filter_step, bind_Ok_r.
  assert (Hev : forall item, exists b, evaluateFilter item criteria = Ok b).
  { intros item. induction Hall as [|c cs Hc _ IH]; [eexists; reflexivity|].
    simpl. unfold eval_criterion at 1.
    rewrite (strict_eq_JStr_false _ "contains" Hc).
    destruct (strict_eq (c_operator c) (JStr "equals")); [|destruct (strict_eq (c_operator c) (JStr "greater")); [|destruct (strict_eq (c_operator c) (JStr "less"))]];
      simpl; try (destruct IH as [b Hb]; rewrite Hb);
      repeat match goal with |- context [if ?b then _ else _] => destruct b end; eauto. }
  induction data as [|item rest IH]; [eexists; reflexivity|].
  destruct IH as [kept Hk]. destruct (Hev item) as [b Hb].
  cbn [filter_items]. rewrite Hb, Hk. eexists. reflexivity.
Qed.

Lemma filter_items_throws_at (criteria : list criterion) (data : list jsobj) (item : jsobj) (m : string) :
  In item data -> evaluateFilter item criteria = Throw m ->
  exists m', filter_items criteria data = Throw m'.
Proof.
  intros Hin Hev. induction data as [|x rest IH]; [contradiction|].
  cbn [filter_items]. destruct Hin as [<-|Hin].
  - rewrite Hev. eexists. reflexivity.
  - destruct (evaluateFilter x criteria) as [b|m']; cbn [bind]; [|eexists; reflexivity].
    destruct (IH Hin) as [m'' ->]. eexists. reflexivity.
Qed.

(** A [contains] criterion meeting a record whose field is missing or
    [null] makes the whole filter step throw. *)
Theorem filter_contains_missing_field_throws (c : criterion) (criteria : list criterion)
    (data : list jsobj) (item : jsobj) :
  c_operator c = JStr "contains" -> In item data ->
  obj_get item (c_field c) = JUndef \/ obj_get item (c_field c) = JNull ->
  exists m, applyTemplateTransformations data [filter_step (c :: criteria)] = Throw m.
Proof.
  intros Hop Hin Hv. cbn [applyTemplateTransformations]. rewrite apply_filter_step.
  assert (Hev : exists m, evaluateFilter item (c :: criteria) = Throw m).
  { cbn [evaluateFilter]. unfold eval_criterion. rewrite Hop.
    cbn [strict_eq String.eqb Ascii.eqb Bool.eqb].
    destruct Hv as [-> | ->]; eexists; reflexivity. }
  destruct Hev as [m Hev]. destruct (filter_items_throws_at _ _ _ _ Hin Hev) as [m' ->].
  eexists. reflexivity.
Qed.

Section Sorting.

Variable cmp : jsobj -> jsobj -> option Q.
Variable R : jsobj -> jsobj -> Prop.
Variable P : jsobj -> Prop.
Hypothesis cmp_gt : forall x y, P x -> P y -> cmp_positive (cmp y x) = true -> R x y.
Hypothesis cmp_le : forall x y, P x -> P y -> cmp_positive (cmp y x) = false -> R y x.

Lemma insert_sorted_perm (x : jsobj) (l : list jsobj) : Permutation (insert_sorted cmp x l) (x :: l).
Proof.
  induction l as [|y l IH]; simpl; [reflexivity|].
  destruct (cmp_positive (cmp y x)); [reflexivity|].
  rewrite IH. apply perm_swap.
Qed.

Lemma insert_sorted_head (x : jsobj) (l : list jsobj) (y : jsobj) :
  P x -> P y -> Forall P l -> R y x -> HdRel R y l -> HdRel R y (insert_sorted cmp x l).
Proof.
  intros Px Py Pl Ryx Hd. destruct l as [|z l]; simpl; [constructor; exact Ryx|].
  destruct (cmp_positive (cmp z x)); constructor; [exact Ryx|].
  inversion Hd; assumption.
Qed.

Lemma insert_sorted_sorted (x : jsobj) (l : list jsobj) :
  P x -> Forall P l -> Sorted R l -> Sorted R (insert_sorted cmp x l).
Proof.
  intros Px. induction l as [|y l IH]; intros Pl Sl; simpl; [repeat constructor|].
  inversion Pl as [|? ? Py Pl']; subst. inversion Sl as [|? ? Sl' Hd]; subst.
  destruct (cmp_positive (cmp y x)) eqn:E.
  - constructor; [exact Sl|]. constructor. apply cmp_gt; assumption.
  - constructor; [apply IH; assumption|].
    apply insert_sorted_head; try assumption. apply cmp_le; assumption.
Qed.

Lemma sort_by_perm_acc (l acc : list jsobj) :
  Permutation (fold_left (fun acc x => insert_sorted cmp x acc) l acc) (l ++ acc).
Proof.
  revert acc. induction l as [|x l IH]; intros acc; simpl; [reflexivity|].
  rewrite IH, insert_sorted_perm. apply Permutation_sym, Permutation_middle.
Qed.

Lemma sort_by_sorted_acc (l acc : list jsobj) :
  Forall P l -> Forall P acc -> Sorted R acc ->
  Sorted R (fold_left (fun acc x => insert_sorted cmp x acc) l acc).
Proof.
  revert acc. induction l as [|x l IH]; intros acc Pl Pacc Sacc; simpl; [exact Sacc|].
  inversion Pl as [|? ? Px Pl']; subst. apply IH; [exact Pl'| |].
  - eapply Permutation_Forall; [symmetry; apply insert_sorted_perm|]. constructor; assumption.
  - apply insert_sorted_sorted; assumption.
Qed.

End Sorting.

(** The [sort] step returns the same records, ordered by the numeric value
    of the field: ascending, or descending when [order] is ['desc'], provided
    every record's field is a number.  The comparator's difference of two
    doubles is rounded, but never to the opposite sign nor to zero, so the
    order is that of the exact values. *)
Theorem sort_step_orders (t : transformation) (data : list jsobj) :
  t_type t = JStr "sort" ->
  (forall r, In r data -> exists q, obj_get r (t_field t) = JNum q /\ round_double q = q) ->
  exists sorted,
    applyTemplateTransformations data [t] = Ok sorted
    /\ Permutation sorted data
    /\ Sorted (fun a b => if strict_eq (t_order t) (JStr "desc")
                          then (field_num (t_field t) b <= field_num (t_field t) a)%Q
                          else (field_num (t_field t) a <= field_num (t_field t) b)%Q) sorted.
Proof.
  intros Ht Hnum. exists (sort_by (sort_compare t) data).
  split; [cbn [applyTemplateTransformations]; unfold apply_transformation; rewrite Ht; reflexivity|].
  split; [unfold sort_by; rewrite sort_by_perm_acc, app_nil_r; reflexivity|].
  set (P := fun r => exists q, obj_get r (t_field t) = JNum q /\ round_double q = q).
  assert (Hnum' : forall r, P r -> to_number (obj_get r (t_field t)) = Some (field_num (t_field t) r)
                                   /\ round_double (field_num (t_field t) r) = field_num (t_field t) r).
  { intros r [q [Hq Hd]]. unfold field_num. rewrite Hq. split; [reflexivity|exact Hd]. }
  unfold sort_by. apply (sort_by_sorted_acc _ _ P).
  - intros x y Px Py. unfold sort_compare, js_sub, cmp_positive.
    destruct (Hnum' x Px) as [Ex Dx]. destruct (Hnum' y Py) as [Ey Dy]. rewrite Ex, Ey.
    destruct (strict_eq (t_order t) (JStr "desc")); intros H; apply negb_true_iff in H;
      (assert (Hn : ~ (_ <= 0)%Q) by (intros Hle; apply Qle_bool_iff in Hle; rewrite Hle in H; discriminate));
      rewrite double_sub_nonpos in Hn by assumption; lra.
  - intros x y Px Py. unfold sort_compare, js_sub, cmp_positive.
    destruct (Hnum' x Px) as [Ex Dx]. destruct (Hnum' y Py) as [Ey Dy]. rewrite Ex, Ey.
    destruct (strict_eq (t_order t) (JStr "desc")); intros H; apply negb_false_iff, Qle_bool_iff in H;
      rewrite double_sub_nonpos in H by assumption; lra.
  - apply Forall_forall. exact Hnum.
  - constructor.
  - constructor.
Qed.

(** *** [Object.values] lists every own property once *)
Lemma insert_index_perm {B} (z : Z) (x : B) (l : list (Z * B)) :
  Permutation (map snd (insert_index z x l)) (x :: map snd l).
Proof.
  induction l as [|[z' y] l IH]; simpl; [reflexivity|].
  destruct (z <? z')%Z; simpl; [reflexivity|].
  rewrite IH. apply perm_swap.
Qed.

Lemma fold_idx_perm {A} (o : list (string * A)) (acc : list (Z * (string * A))) :
  Permutation (map snd (fold_left idx_step o acc))
              (map snd acc ++ filter (fun kv => negb (not_index kv)) o).
Proof.
  revert acc. induction o as [|kv o IH]; intros acc; simpl; [rewrite app_nil_r; reflexivity|].
  rewrite IH. unfold idx_step, not_index at 2.
  destruct (array_index (fst kv)); simpl.
  - rewrite insert_index_perm. simpl. apply Permutation_middle.
  - reflexivity.
Qed.

Lemma filter_split_perm {B} (p : B -> bool) (l : list B) :
  Permutation (filter (fun x => negb (p x)) l ++ filter p l) l.
Proof.
  induction l as [|x l IH]; simpl; [reflexivity|].
  destruct (p x); simpl.
  - rewrite <- Permutation_middle. constructor. exact IH.
  - constructor. exact IH.
Qed.

Lemma ordinary_own_entries_perm {A} (o : list (string * A)) :
  Permutation (ordinary_own_entries o) o.
Proof.
  rewrite ordinary_own_entries_eq, fold_idx_perm. simpl. apply filter_split_perm.
Qed.

(** *** Sums over a list of rows *)
Lemma sum_field_cons (n : string) (r : jsobj) (rows : list jsobj) :
  (sum_field n (r :: rows) == field_num n r + sum_field n rows)%Q.
Proof.
  unfold sum_field at 1, field_num. simpl. fold (sum_field n rows).
  destruct (to_number (obj_get r n)); [reflexivity|ring].
Qed.

Lemma sum_field_perm (n : string) (l1 l2 : list jsobj) :
  Permutation l1 l2 -> (sum_field n l1 == sum_field n l2)%Q.
Proof.
  induction 1 as [|x l1 l2 _ IH|x y l|l1 l2 l3 _ IH1 _ IH2].
  - reflexivity.
  - rewrite !sum_field_cons, IH. reflexivity.
  - rewrite !sum_field_cons. ring.
  - rewrite IH1. exact IH2.
Qed.

Lemma sum_field_app (n : string) (l1 l2 : list jsobj) :
  (sum_field n (l1 ++ l2) == sum_field n l1 + sum_field n l2)%Q.
Proof.
  induction l1 as [|r l1 IH]; simpl app.
  - unfold sum_field at 2. simpl. ring.
  - rewrite !sum_field_cons, IH. ring.
Qed.

(** *** [grouped[key] = ...] on the group table *)
Lemma own_obj_set_same {A} (o : list (string * A)) (k : string) (v : A) :
  own (obj_set o k v) k = Some v.
Proof.
  induction o as [|[k' v'] o IH]; simpl.
  - rewrite String.eqb_refl. reflexivity.
  - destruct (String.eqb k k') eqn:E; simpl.
    + rewrite String.eqb_refl. reflexivity.
    + rewrite E. exact IH.
Qed.

Lemma obj_get_set_same (o : jsobj) (k : string) (v : jsval) :
  obj_get (obj_set o k v) k = v.
Proof. unfold obj_get. rewrite own_obj_set_same. reflexivity. Qed.

Lemma obj_set_in {A} (o : list (string * A)) (k : string) (v : A) (k2 : string) (v2 : A) :
  In (k2, v2) (obj_set o k v) -> In (k2, v2) o \/ (k2, v2) = (k, v).
Proof.
  induction o as [|[k' v'] o IH]; simpl.
  - intros [H|[]]. right. symmetry. exact H.
  - destruct (String.eqb k k'); simpl.
    + intros [H|H]; [right; symmetry; exact H|left; right; exact H].
    + intros [H|H]; [left; left; exact H|]. destruct (IH H); tauto.
Qed.

Lemma sum_obj_set_old (n : string) (G : list (string * jsobj)) (k : string) (g g' : jsobj) :
  own G k = Some g ->
  (sum_field n (map snd (obj_set G k g')) == sum_field n (map snd G) - field_num n g + field_num n g')%Q.
Proof.
  induction G as [|[k' v] G IH]; cbn [own obj_set]; [discriminate|].
  destruct (String.eqb k k') eqn:E.
  - intros H. injection H as ->. cbn [map snd]. rewrite !sum_field_cons. ring.
  - intros H. cbn [map snd]. rewrite !sum_field_cons, (IH H). ring.
Qed.

Lemma sum_obj_set_new (n : string) (G : list (string * jsobj)) (k : string) (g' : jsobj) :
  own G k = None ->
  (sum_field n (map snd (obj_set G k g')) == sum_field n (map snd G) + field_num n g')%Q.
Proof.
  induction G as [|[k' v] G IH]; cbn [own obj_set].
  - intros _. cbn [map snd]. rewrite sum_field_cons. unfold sum_field. simpl. ring.
  - destruct (String.eqb k k') eqn:E; [discriminate|].
    intros H. cbn [map snd]. rewrite !sum_field_cons, (IH H). ring.
Qed.

(** *** One aggregate field whose value grows by [d item] per record

    The group values stay in [good] as long as their absolute values stay
    within [budget]: for [sum] these are the integers of a double's exact
    range. *)
Section OneField.

Variable groupBy : string.
Variable f : aggregate_field.
Variable d : jsobj -> Q.
Variable ok : jsobj -> Prop.
Variable good : Q -> Prop.
Variable budget : Q.

Hypothesis good_0 : good 0.
Hypothesis upd : forall item g a, ok item -> obj_get g (a_name f) = JNum a -> good a ->
  (Qabs a + Qabs (d item) <= budget)%Q ->
  exists a', update_group item g f = obj_set g (a_name f) (JNum a') /\ (a' == a + d item)%Q /\ good a'.

Lemma field_num_JNum (g : jsobj) (a : Q) : obj_get g (a_name f) = JNum a -> field_num (a_name f) g = a.
Proof. intros H. unfold field_num. rewrite H. reflexivity. Qed.

Lemma new_group_num (key : jsval) : obj_get (new_group groupBy key [f]) (a_name f) = JNum 0.
Proof. unfold new_group. cbn [fold_left]. apply obj_get_set_same. Qed.

Lemma bounded_groups_set (G : list (string * jsobj)) (S S' : Q) (k : string) (g : jsobj) (a : Q) :
  bounded_groups f good S G -> (S <= S')%Q ->
  obj_get g (a_name f) = JNum a -> good a -> (Qabs a <= S')%Q ->
  bounded_groups f good S' (obj_set G k g).
Proof.
  intros HG HS Ha Hga HaS k2 g2 Hin. apply obj_set_in in Hin. destruct Hin as [Hin|Heq].
  - destruct (HG k2 g2 Hin) as [a2 [H1 [H2 H3]]]. exists a2. split; [exact H1|split; [exact H2|lra]].
  - injection Heq as -> ->. exists a. tauto.
Qed.

Lemma aggregate_item_step (G : list (string * jsobj)) (S : Q) (item : jsobj) :
  ok item ->
  is_inherited (to_string (obj_get item groupBy)) = false ->
  bounded_groups f good S G -> (0 <= S)%Q -> (S + Qabs (d item) <= budget)%Q ->
  bounded_groups f good (S + Qabs (d item)) (aggregate_item groupBy [f] G item)
  /\ (sum_field (a_name f) (map snd (aggregate_item groupBy [f] G item))
      == sum_field (a_name f) (map snd G) + d item)%Q.
Proof.
  intros Hok Hinh HG HS0 HSb. pose proof (Qabs_nonneg (d item)) as Hd0.
  unfold aggregate_item. simpl fold_left.
  set (k := to_string (obj_get item groupBy)) in *.
  destruct (own G k) as [g|] eqn:Eo.
  - assert (Hg : exists a, obj_get g (a_name f) = JNum a /\ good a /\ (Qabs a <= S)%Q).
    { clear -Eo HG. induction G as [|[k' v] G IH]; simpl in Eo; [discriminate|].
      destruct (String.eqb k k'); [injection Eo as ->; eapply HG; left; reflexivity|].
      apply IH; [|exact Eo]. intros k2 g2 Hin. eapply HG. right. exact Hin. }
    destruct Hg as [a [Ha [Hga HaS]]].
    destruct (upd item g a Hok Ha Hga) as [a' [-> [Ha' Hga']]]; [lra|].
    split.
    + apply (bounded_groups_set G S _ k _ a'); [exact HG|lra|apply obj_get_set_same|exact Hga'|].
      rewrite Ha'. apply Qle_trans with (Qabs a + Qabs (d item)); [apply Qabs_triangle|lra].
    + rewrite (sum_obj_set_old _ _ _ _ _ Eo), (field_num_JNum _ _ Ha), (field_num_JNum _ a'); [|apply obj_get_set_same].
      rewrite Ha'. ring.
  - rewrite Hinh.
    destruct (upd item (new_group groupBy (obj_get item groupBy) [f]) 0 Hok (new_group_num _) good_0)
      as [a' [Hu [Ha' Hga']]]; [simpl; lra|].
    rewrite Hu. split.
    + apply (bounded_groups_set G S _ k _ a'); [exact HG|lra|apply obj_get_set_same|exact Hga'|].
      rewrite Ha'. setoid_replace (0 + d item)%Q with (d item) by ring. lra.
    + rewrite (sum_obj_set_new _ _ _ _ Eo), (field_num_JNum _ a'); [|apply obj_get_set_same].
      rewrite Ha'. ring.
Qed.

Lemma aggregate_fold_total (data : list jsobj) (G : list (string * jsobj)) (S : Q) :
  (forall r, In r data -> ok r /\ is_inherited (to_string (obj_get r groupBy)) = false) ->
  bounded_groups f good S G -> (0 <= S)%Q ->
  (S + fold_right (fun r acc => Qabs (d r) + acc) 0 data <= budget)%Q ->
  (sum_field (a_name f) (map snd (fold_left (aggregate_item groupBy [f]) data G))
   == sum_field (a_name f) (map snd G) + fold_right (fun r acc => d r + acc) 0 data)%Q.
Proof.
  revert G S. induction data as [|item data IH]; intros G S Hk HG HS0 HSb; simpl; [ring|].
  simpl in HSb.
  assert (Hrest : (0 <= fold_right (fun r acc => Qabs (d r) + acc) 0 data)%Q).
  { clear. induction data as [|r data IH]; simpl; [lra|]. pose proof (Qabs_nonneg (d r)). lra. }
  destruct (Hk item (or_introl eq_refl)) as [Hok Hinh].
  destruct (aggregate_item_step G S item Hok Hinh HG HS0) as [HG' Hs]; [lra|].
  rewrite (IH _ (S + Qabs (d item))); [|intros r Hr; apply Hk; right; exact Hr|exact HG'| |].
  - rewrite Hs. ring.
  - pose proof (Qabs_nonneg (d item)). lra.
  - lra.
Qed.

Lemma aggregateData_total (data : list jsobj) :
  (forall r, In r data -> ok r /\ is_inherited (to_string (obj_get r groupBy)) = false) ->
  (fold_right (fun r acc => Qabs (d r) + acc) 0 data <= budget)%Q ->
  (sum_field (a_name f) (aggregateData data groupBy [f])
   == fold_right (fun r acc => d r + acc) 0 data)%Q.
Proof.
  intros Hk Hb. unfold aggregateData, object_values.
  rewrite (sum_field_perm _ _ _ (Permutation_map snd (ordinary_own_entries_perm _))).
  rewrite (aggregate_fold_total data [] 0 Hk); [| intros k g [] | apply Qle_refl | lra].
  unfold sum_field at 1. simpl. ring.
Qed.

End OneField.

Lemma js_add_JNum (a b : Q) : js_add (JNum a) (JNum b) = JNum (Qred (round_double (a + b))).
Proof. reflexivity. Qed.

Lemma js_inc_JNum (a : Q) : js_inc (JNum a) = JNum (Qred (a + 1)).
Proof. reflexivity. Qed.

(** An integer of absolute value below [2^53] is a double. *)
Lemma round_double_int (m : Z) : (Z.abs m < 2 ^ 53)%Z -> round_double (inject_Z m) == inject_Z m.
Proof.
  intros Hm. unfold round_double.
  assert (Hq : Qred (inject_Z m) == inject_Z m) by apply Qred_correct.
  destruct (Qeq_bool (Qred (inject_Z m)) 0) eqn:Ez.
  { apply Qeq_bool_iff in Ez. rewrite Hq in Ez. rewrite Ez. reflexivity. }
  set (q := Qred (inject_Z m)) in *.
  assert (Hq0 : ~ q == 0) by (intros E; apply Qeq_bool_iff in E; congruence).
  set (e := float_exp q).
  assert (He : (e <= 52)%Z).
  { destruct (Z.le_gt_cases e 52) as [Hle|Hgt]; [exact Hle|exfalso].
    pose proof (float_exp_lower q Hq0) as Hl. fold e in Hl.
    assert (H53 : pow2 53 <= pow2 e).
    { replace e with (53 + (e - 53))%Z by lia. rewrite (pow2_add 53 (e - 53)).
      rewrite !(pow2_Z _) by lia.
      assert (H1 : 1 <= inject_Z (2 ^ (e - 53))).
      { change 1 with (inject_Z 1). rewrite <- Zle_Qle.
        pose proof (Z.pow_pos_nonneg 2 (e - 53)). lia. }
      set (t := inject_Z (2 ^ (e - 53))) in *. change (inject_Z (2 ^ 53)) with (9007199254740992 # 1).
      lra. }
    assert (Ha : Qabs q == inject_Z (Z.abs m)) by (rewrite Hq; reflexivity).
    rewrite Ha in Hl. rewrite (pow2_Z 53) in H53 by lia.
    assert (Hlt : inject_Z (Z.abs m) < inject_Z (2 ^ 53)) by (rewrite <- Zlt_Qlt; exact Hm).
    set (X := pow2 e) in *. set (Y := inject_Z (2 ^ 53)) in *. set (A := inject_Z (Z.abs m)) in *.
    lra. }
  set (k := Z.min (52 - e) 1074).
  assert (Hk : (0 <= k)%Z) by (unfold k; lia).
  assert (Hy : q * pow2 k == inject_Z (m * 2 ^ k)) by (rewrite Hq, pow2_Z, inject_Z_mult by exact Hk; reflexivity).
  assert (Hr : round_half_even (q * pow2 k) = (m * 2 ^ k)%Z).
  { destruct (round_half_even_near (q * pow2 k)) as [H1 H2].
    set (n := round_half_even (q * pow2 k)) in *. set (y := q * pow2 k) in *.
    assert (H1' : (m * 2 ^ k < n + 1)%Z).
    { rewrite Zlt_Qlt, inject_Z_plus. change (inject_Z 1) with 1.
      set (Y := inject_Z (m * 2 ^ k)) in *. set (N := inject_Z n) in *. lra. }
    assert (H2' : (n < m * 2 ^ k + 1)%Z).
    { rewrite Zlt_Qlt. rewrite inject_Z_plus. change (inject_Z 1) with 1.
      set (Y := inject_Z (m * 2 ^ k)) in *. set (N := inject_Z n) in *. lra. }
    lia. }
  rewrite Hr, Qred_correct, inject_Z_mult, <- (pow2_Z k Hk), <- Qmult_assoc, <- pow2_add.
  rewrite Z.add_opp_diag_r. change (pow2 0) with 1. ring.
Qed.

(** The [sum] aggregation keeps the total: when every record's group value
    names no [Object.prototype] property, every source value is an integer,
    and their absolute values add up to at most [Number.MAX_SAFE_INTEGER]
    ([2^53 - 1]), every double addition is exact and the group sums add up
    to the sum over all records. *)
Theorem aggregate_sum_total (data : list jsobj) (groupBy n s : string) :
  (forall r, In r data -> is_inherited (to_string (obj_get r groupBy)) = false) ->
  (forall r, In r data -> exists z, obj_get r s = JNum (inject_Z z)) ->
  (abs_sum_field s data <= inject_Z (2 ^ 53 - 1))%Q ->
  (sum_field n (aggregateData data groupBy
     [{| a_name := n; a_operation := JStr "sum"; a_sourceField := s |}])
   == sum_field s data)%Q.
Proof.
  intros Hk Hnum Hb.
  set (f := {| a_name := n; a_operation := JStr "sum"; a_sourceField := s |}).
  change n with (a_name f).
  rewrite (aggregateData_total groupBy f (field_num s) (fun r => exists z, obj_get r s = JNum (inject_Z z))
             (fun a => exists z, a == inject_Z z) (inject_Z (2 ^ 53 - 1))).
  - clear Hk Hb. induction data as [|r data IH]; [reflexivity|].
    simpl fold_right. rewrite sum_field_cons, IH; [reflexivity|].
    intros r' Hr'. apply Hnum. right. exact Hr'.
  - exists 0%Z. reflexivity.
  - intros item g a [z Hz] Ha [za Hza] Hab.
    assert (Hd : field_num s item = inject_Z z) by (unfold field_num; rewrite Hz; reflexivity).
    rewrite Hd, Hza in Hab.
    assert (Hsum : a + inject_Z z == inject_Z (za + z)) by (rewrite Hza, inject_Z_plus; reflexivity).
    assert (Habs : (Z.abs (za + z) < 2 ^ 53)%Z).
    { assert (H1 : inject_Z (Z.abs za) + inject_Z (Z.abs z) <= inject_Z (2 ^ 53 - 1)) by exact Hab.
      rewrite <- inject_Z_plus, <- Zle_Qle in H1. lia. }
    exists (Qred (round_double (a + inject_Z z))). split; [|split].
    + unfold update_group. subst f. cbn [a_name a_operation a_sourceField] in *. rewrite Ha, Hz. reflexivity.
    + rewrite Qred_correct, Hd, (round_double_Qeq _ _ Hsum), round_double_int by exact Habs.
      symmetry. exact Hsum.
    + exists (za + z)%Z. rewrite Qred_correct, (round_double_Qeq _ _ Hsum). apply round_double_int. exact Habs.
  - intros r Hr. split; [apply Hnum|apply Hk]; exact Hr.
  - exact Hb.
Qed.

(** The [count] aggregation counts every record once: when no record's group
    value names an [Object.prototype] property, the group counts add up to
    the number of records. *)
Theorem aggregate_count_total (data : list jsobj) (groupBy n s : string) :
  (forall r, In r data -> is_inherited (to_string (obj_get r groupBy)) = false) ->
  (sum_field n (aggregateData data groupBy
     [{| a_name := n; a_operation := JStr "count"; a_sourceField := s |}])
   == inject_Z (Z.of_nat (length data)))%Q.
Proof.
  intros Hk.
  set (f := {| a_name := n; a_operation := JStr "count"; a_sourceField := s |}).
  change n with (a_name f).
  rewrite (aggregateData_total groupBy f (fun _ => 1%Q) (fun _ => True) (fun _ => True)
             (fold_right (fun r acc => Qabs 1 + acc) 0 data)).
  - clear Hk. induction data as [|r data IH]; [reflexivity|].
    simpl fold_right. rewrite IH. simpl length. rewrite Nat2Z.inj_succ, <- Z.add_1_l, inject_Z_plus. reflexivity.
  - exact I.
  - intros item g a _ Ha _ _. exists (Qred (a + 1)). split; [|split; [|exact I]].
    + unfold update_group. subst f. cbn [a_name a_operation a_sourceField] in *. rewrite Ha. reflexivity.
    + apply Qred_correct.
  - intros r Hr. split; [exact I|apply Hk; exact Hr].
  - apply Qle_refl.
Qed.

Lemma fetch_check_shape rnd reg k :
  let c := fst (fetch_check rnd reg k) in
  valid_check c /\ obj_get c "regulation" = reg /\ In (obj_get c "severity") severity_values.
Proof.
  unfold fetch_check.
  destruct (Qle_bool (rnd (S k)) (7 # 10)); [destruct (Qle_bool (rnd (S (S k))) (2 # 5))|];
  destruct (Qle_bool (rnd k) (1 # 5)); cbn; unfold valid_check, obj_get; cbn;
  (split; [tauto|split; [reflexivity|tauto]]).
Qed.

Lemma fetch_checks_shape rnd regs k :
  let cs := fst (fetch_checks rnd regs k) in
  length cs = length regs /\
  Forall (fun c => valid_check c /\ In (obj_get c "regulation") regs
                   /\ In (obj_get c "severity") severity_values) cs.
Proof.
  revert k. induction regs as [|reg regs IH]; intros k; cbn; [split; [reflexivity|constructor]|].
  pose proof (fetch_check_shape rnd reg k) as Hc.
  destruct (fetch_check rnd reg k) as [c k1]. cbn in Hc.
  specialize (IH k1). destruct (fetch_checks rnd regs k1) as [cs k2]. cbn in *.
  destruct IH as [Hl Hf]. split; [rewrite Hl; reflexivity|].
  constructor.
  - destruct Hc as (Hv & Hr & Hs). rewrite Hr. tauto.
  - eapply Forall_impl; [|exact Hf]. intros c' (H1 & H2 & H3). tauto.
Qed.

(** The checks fetched for a period are one per regulation: [processComplianceChecks] splits them into compliant checks and violations whose counts add up to the number of regulations, and each violation names one of the regulations and has severity high, medium or low. *)
Theorem fetched_compliance_checks_split (rnd : nat -> Q) (k : nat) (period : jsval)
    (regulations : list jsval) (institutions : jsval) :
  let r := processComplianceChecks (cd_checks (fst (fetchComplianceData rnd k period regulations institutions))) in
  totalChecks r = length regulations
  /\ (length (compliantChecks r) + length (violations r))%nat = length regulations
  /\ Forall (fun v => In (obj_get v "regulation") regulations
                      /\ In (obj_get v "severity") severity_values) (violations r).
Proof.
  unfold fetchComplianceData.
  destruct (fetch_checks_shape rnd regulations k) as [Hl Hf].
  destruct (fetch_checks rnd regulations k) as [cs k']. cbn in *.
  split; [exact Hl|split].
  - rewrite status_split; [exact Hl|]. refine (Forall_impl _ _ Hf). intros c; tauto.
  - apply Forall_filter_of. refine (Forall_impl _ _ Hf). intros c; tauto.
Qed.

Lemma str_app_assoc (a b c : string) : (a ++ b) ++ c = a ++ (b ++ c).
Proof. induction a as [|x a IH]; simpl; [reflexivity|rewrite IH; reflexivity]. Qed.

Lemma str_app_nil_r (a : string) : a ++ "" = a.
Proof. induction a as [|x a IH]; simpl; [reflexivity|rewrite IH; reflexivity]. Qed.

Lemma concat_empty_cons (x : string) (l : list string) :
  String.concat "" (x :: l) = x ++ String.concat "" l.
Proof. destruct l; simpl; [rewrite str_app_nil_r|]; reflexivity. Qed.

Lemma occurs_in_concat (s : string) (l : list string) :
  (exists x, In x l /\ occurs_in s x) -> occurs_in s (String.concat "" l).
Proof.
  intros (x & Hx & Hocc). induction l as [|y l IH]; [destruct Hx|].
  rewrite concat_empty_cons. destruct Hx as [->|Hx].
  - destruct Hocc as (pre & post & ->).
    exists pre, (post ++ String.concat "" l). rewrite !str_app_assoc. reflexivity.
  - destruct (IH Hx) as (pre' & post' & E). exists (y ++ pre'), post'.
    rewrite E, !str_app_assoc. reflexivity.
Qed.

Lemma occurs_in_app_l (s a b : string) : occurs_in s b -> occurs_in s (a ++ b).
Proof. intros (pre & post & ->). exists (a ++ pre), post. rewrite str_app_assoc. reflexivity. Qed.

Lemma occurs_in_app_r (s a b : string) : occurs_in s a -> occurs_in s (a ++ b).
Proof. intros (pre & post & ->). exists pre, (post ++ b). rewrite !str_app_assoc. reflexivity. Qed.

(** A non-empty string value in a displayed column of a table row appears verbatim, unescaped, inside a [<td>] cell of the HTML that [renderTable] produces. *)
Theorem renderTable_inserts_values_unescaped (data tableData : list jsobj) (sec : section)
    (row : jsobj) (col : column) (s : string) :
  filterDataForSection data (s_dataFilter sec) = Ok tableData ->
  In row tableData -> In col (s_columns sec) ->
  obj_get row (col_field col) = JStr s -> s <> "" ->
  exists out, renderTable data sec = Ok out /\ occurs_in ("<td>" ++ s ++ "</td>") out.
Proof.
  intros Hf Hrow Hcol Hv Hs. unfold renderTable. rewrite Hf. cbn [bind].
  eexists; split; [reflexivity|].
  assert (Hcell : render_cell row col = "<td>" ++ s ++ "</td>").
  { unfold render_cell. rewrite Hv. cbn [truthy to_string].
    destruct (String.eqb s "") eqn:E; [apply String.eqb_eq in E; contradiction|reflexivity]. }
  do 39 apply occurs_in_app_l. apply occurs_in_app_r.
  apply occurs_in_concat. exists (render_row (s_columns sec) row). split; [apply in_map; exact Hrow|].
  unfold render_row. do 5 apply occurs_in_app_l. apply occurs_in_app_r.
  apply occurs_in_concat. exists (render_cell row col). split; [apply in_map; exact Hcol|].
  rewrite Hcell. exists "", "". rewrite str_app_nil_r. reflexivity.
Qed.

Lemma own_obj_set_other {A} (o : list (string * A)) (k g : string) (v : A) :
  g <> k -> own (obj_set o k v) g = own o g.
Proof.
  intros Hne. induction o as [|[k' v'] o IH]; cbn [obj_set own].
  - destruct (String.eqb_spec g k); [contradiction|reflexivity].
  - destruct (String.eqb_spec k k') as [->|Hk]; cbn [own].
    + destruct (String.eqb_spec g k'); [contradiction|reflexivity].
    + rewrite IH. reflexivity.
Qed.

Lemma obj_get_set_other (o : jsobj) (k g : string) (v : jsval) :
  g <> k -> obj_get (obj_set o k v) g = obj_get o g.
Proof. intros H. unfold obj_get. rewrite own_obj_set_other by exact H. reflexivity. Qed.



(** Without a section filter, [renderTable] renders a falsy cell value (0, empty string, false, ...) exactly as a null one: as an empty cell. *)
Theorem renderTable_falsy_as_null (pre post : list jsobj) (r : jsobj) (f : string) (sec : section) :
  s_dataFilter sec = None -> truthy (obj_get r f) = false ->
  renderTable (pre ++ r :: post) sec = renderTable (pre ++ obj_set r f JNull :: post) sec.
Proof.
  intros Hnf Hfalsy. unfold renderTable, filterDataForSection. rewrite Hnf. cbn [bind].
  assert (Hrow : render_row (s_columns sec) r = render_row (s_columns sec) (obj_set r f JNull)).
  { unfold render_row. do 6 f_equal.
    f_equal. apply map_ext. intros col. unfold render_cell.
    destruct (String.eqb_spec (col_field col) f) as [->|Hne].
    - rewrite obj_get_set_same, Hfalsy. reflexivity.
    - rewrite obj_get_set_other by exact Hne. reflexivity. }
  rewrite !map_app. cbn [map]. rewrite Hrow. reflexivity.
Qed.

Lemma new_Date_in_month (y m d : Z) :
  (1 <= d <= days_in_month (y + m / 12) (m mod 12))%Z ->
  new_Date y m d = mkDate (y + m / 12) (m mod 12) d.
Proof.
  intros Hd. unfold new_Date.
  destruct (Z.to_nat (Z.abs d)) eqn:E; rewrite carry_days_S.
  - destruct (d <? 1)%Z eqn:E1; [apply Z.ltb_lt in E1; lia|].
    destruct (days_in_month (y + m / 12) (m mod 12) <? d)%Z eqn:E2; [apply Z.ltb_lt in E2; lia|reflexivity].
  - destruct (d <? 1)%Z eqn:E1; [apply Z.ltb_lt in E1; lia|].
    destruct (days_in_month (y + m / 12) (m mod 12) <? d)%Z eqn:E2; [apply Z.ltb_lt in E2; lia|reflexivity].
Qed.

(** The [beforeCreate] hook gives a quarterly report without a due date the 30th of the first month of the next quarter; in the last quarter that is 30 January of the next year. *)
Theorem beforeCreate_quarterly_due (now : date) (report : report_new) :
  (0 <= month now <= 11)%Z ->
  rn_type report = JStr "quarterly" ->
  date_field_truthy (rn_dueDate report) = false ->
  rn_dueDate (beforeCreate now report)
  = DateObj (if (9 <=? month now)%Z then mkDate (year now + 1) 0 30
             else mkDate (year now) (3 * (month now / 3) + 3) 30).
Proof.
  intros Hm Ht Hd. unfold beforeCreate. rewrite Hd, Ht.
  cbn [negb strict_eq String.eqb Ascii.eqb Bool.eqb set_dueDate rn_dueDate]. f_equal.
  destruct now as [y m d]. cbn [year month] in *.
  assert (Hc : (m = 0 \/ m = 1 \/ m = 2 \/ m = 3 \/ m = 4 \/ m = 5 \/ m = 6 \/ m = 7
               \/ m = 8 \/ m = 9 \/ m = 10 \/ m = 11)%Z) by lia.
  destruct Hc as [->|[->|[->|[->|[->|[->|[->|[->|[->|[->|[->| ->]]]]]]]]]]];
  (rewrite new_Date_in_month; [cbn; f_equal; lia|cbn; unfold days_in_month; cbn; lia]).
Qed.

(** The [beforeCreate] hook gives an annual report without a due date 31 March of the next year. *)
Theorem beforeCreate_annual_due_march_31 (now : date) (report : report_new) :
  rn_type report = JStr "annual" ->
  date_field_truthy (rn_dueDate report) = false ->
  rn_dueDate (beforeCreate now report) = DateObj (mkDate (year now + 1) 2 31).
Proof.
  intros Ht Hd. unfold beforeCreate. rewrite Hd, Ht.
  cbn [negb strict_eq String.eqb Ascii.eqb Bool.eqb set_dueDate rn_dueDate]. f_equal.
  rewrite new_Date_in_month; [cbn; f_equal; lia|cbn; unfold days_in_month; cbn; lia].
Qed.

Lemma truthy_js_and (a b : jsval) : truthy (js_and a b) = truthy a && truthy b.
Proof. unfold js_and. destruct (truthy a) eqn:E; [reflexivity|exact E]. Qed.

(** At most one of [canBeEdited], [canBeApproved] and [canBeSubmitted] is truthy for a report. *)
Theorem report_actions_exclusive (report : jsobj) :
  (length (filter (fun b : bool => b)
     [canBeEdited report; truthy (canBeApproved report); truthy (canBeSubmitted report)]) <= 1)%nat.
Proof.
  unfold canBeApproved, canBeSubmitted. rewrite !truthy_js_and. cbn [truthy].
  unfold canBeEdited. cbn [existsb].
  destruct (obj_get report "status") as [| | |q| |s| |]; cbn [strict_eq];
  try (destruct (truthy (obj_get report "approvedBy")); cbn; lia).
  destruct (String.eqb s "pending") eqn:E1; [apply String.eqb_eq in E1; subst; cbn; lia|].
  destruct (String.eqb s "failed") eqn:E2; [apply String.eqb_eq in E2; subst; cbn; lia|].
  destruct (String.eqb s "completed"), (truthy (obj_get report "approvedBy")),
    (truthy (obj_get report "submittedAt")); cbn; lia.
Qed.

Lemma isOverdue_where (now : Z) (row : jsobj) :
  stored_row row -> truthy (isOverdue now row) = overdue_where now row.
Proof.
  intros [Hd [s Hs]]. unfold isOverdue, overdue_where. rewrite !truthy_js_and, Hs. cbn [truthy strict_eq].
  destruct Hd as [Hd|[t Hd]]; rewrite Hd; cbn [truthy andb]; [reflexivity|].
  unfold now_after. cbn [to_number].
  replace (negb (Qle_bool (inject_Z now) (inject_Z t))) with (t <? now)%Z; [reflexivity|].
  destruct (Z.ltb_spec t now) as [H|H].
  - symmetry. apply negb_true_iff. apply not_true_iff_false. rewrite Qle_bool_iff, <- Zle_Qle. lia.
  - symmetry. apply negb_false_iff. rewrite Qle_bool_iff, <- Zle_Qle. exact H.
Qed.

(** On rows as the table stores them ([dueDate] a date or [NULL], [status] a string), [Report.findOverdue] returns exactly the live rows whose [isOverdue()] is truthy. *)
Theorem findOverdue_iff_isOverdue (now : Z) (w : world) (row : jsobj) :
  Forall stored_row (map snd (w_reports w)) ->
  In row (findOverdue now w) <-> In row (live_rows w) /\ truthy (isOverdue now row) = true.
Proof.
  intros Hall. unfold findOverdue. rewrite filter_In. split; intros [Hin Hb]; split; try exact Hin.
  - rewrite isOverdue_where; [exact Hb|].
    unfold live_rows in Hin. apply filter_In in Hin. eapply Forall_forall; [exact Hall|apply Hin].
  - rewrite <- isOverdue_where; [exact Hb|].
    unfold live_rows in Hin. apply filter_In in Hin. eapply Forall_forall; [exact Hall|apply Hin].
Qed.

(** For a user whose role is a value of the User role enum, [requireRole(['admin','manager','analyst'])] behaves as [requireRole(['admin','manager'])], and lets the user through exactly when [isManager()] holds. *)
Theorem requireRole_analyst_is_manager (user : jsobj) :
  In (obj_get user "role") user_roles ->
  requireRole [JStr "admin"; JStr "manager"; JStr "analyst"] (Some user)
  = requireRole [JStr "admin"; JStr "manager"] (Some user)
  /\ (requireRole [JStr "admin"; JStr "manager"] (Some user) = Next <-> isManager user = true).
Proof.
  unfold requireRole, isManager, user_roles.
  intros [H|[H|[H|[]]]]; rewrite <- H; cbn; split; try reflexivity; split; congruence.
Qed.

Lemma split_on_no_space (s rest : string) :
  has_space s = false ->
  split_on " " (s ++ String " " rest) = s :: split_on " " rest.
Proof.
  induction s as [|a s IH]; intros H; [reflexivity|].
  cbn in H. apply orb_false_iff in H as [Ha Hs]. cbn. rewrite Ha.
  unfold has_space in IH. rewrite (IH Hs). reflexivity.
Qed.

Lemma split_on_nonempty (s : string) : split_on " " s <> [].
Proof. destruct s; cbn; [discriminate|]. destruct (Ascii.eqb a " "); [discriminate|]. destruct (split_on " " s); discriminate. Qed.

(** [authenticateToken] only reads what follows the first space of the Authorization header: any non-empty scheme without spaces is treated as [Bearer]. *)
Theorem authenticateToken_ignores_scheme verify findUser (scheme rest : string) :
  has_space scheme = false -> scheme <> "" ->
  authenticateToken verify findUser (JStr (scheme ++ " " ++ rest))
  = authenticateToken verify findUser (JStr ("Bearer " ++ rest)).
Proof.
  intros Hs Hne. unfold authenticateToken.
  assert (Ht1 : truthy (JStr (scheme ++ " " ++ rest)) = true).
  { cbn. destruct scheme; [contradiction|reflexivity]. }
  rewrite Ht1. cbn [truthy negb String.eqb Ascii.eqb Bool.eqb].
  change (" " ++ rest) with (String " " rest).
  rewrite (split_on_no_space scheme rest Hs).
  change ("Bearer " ++ rest) with ("Bearer" ++ String " " rest).
  rewrite (split_on_no_space "Bearer" rest eq_refl). reflexivity.
Qed.

Lemma split_on_no_space_end (s : string) : has_space s = false -> split_on " " s = [s].
Proof.
  induction s as [|a s IH]; intros H; [reflexivity|].
  cbn in H. apply orb_false_iff in H as [Ha Hs]. cbn. rewrite Ha.
  unfold has_space in IH. rewrite (IH Hs). reflexivity.
Qed.

(** An Authorization header without a space, or with two spaces after the scheme, is answered 401 [No token provided]. *)
Theorem authenticateToken_no_token verify findUser (scheme rest : string) :
  has_space scheme = false ->
  authenticateToken verify findUser (JStr scheme)
    = (Respond (JsonResponse 401 false "No token provided"), None)
  /\ authenticateToken verify findUser (JStr (scheme ++ "  " ++ rest))
    = (Respond (JsonResponse 401 false "No token provided"), None).
Proof.
  intros Hs. unfold authenticateToken. cbv zeta. split.
  - destruct (truthy (JStr scheme)) eqn:E; [|rewrite E; reflexivity].
    rewrite (split_on_no_space_end scheme Hs). reflexivity.
  - change ("  " ++ rest) with (String " " (String " " rest)).
    rewrite (split_on_no_space scheme _ Hs).
    destruct (truthy (JStr (scheme ++ String " " (String " " rest)))) eqn:E; [|rewrite E; reflexivity].
    cbn [split_on Ascii.eqb Bool.eqb second_field]. reflexivity.
Qed.

Lemma row_lookup_replace (rows : list (Z * jsobj)) (i : Z) (r r' : jsobj) :
  row_lookup rows i = Some r -> row_lookup (row_replace rows i r') i = Some r'.
Proof.
  induction rows as [|[j x] rows IH]; cbn; [discriminate|].
  destruct (i =? j)%Z eqn:E; cbn; rewrite E; [reflexivity|exact IH].
Qed.

Lemma row_lookup_replace_other (rows : list (Z * jsobj)) (i j : Z) (r' : jsobj) :
  j <> i -> row_lookup (row_replace rows i r') j = row_lookup rows j.
Proof.
  intros Hne. induction rows as [|[k x] rows IH]; cbn; [reflexivity|].
  destruct (i =? k)%Z eqn:E; cbn.
  - apply Z.eqb_eq in E. subst k. destruct (Z.eqb_spec j i); [contradiction|reflexivity].
  - rewrite IH. reflexivity.
Qed.

Lemma create_row_without_generatedBy (values : jsobj) (w : world) :
  own (update_values values) "generatedBy" = None ->
  exists e, create_row values w = (Throw e, w).
Proof.
  intros Hg. unfold create_row. cbv zeta.
  destruct (filter (fun a => missing_value (obj_get (update_values values) a)) report_required) as [|a l] eqn:E.
  - exfalso. assert (Hin : In "generatedBy" (filter (fun a => missing_value (obj_get (update_values values) a)) report_required)).
    { apply filter_In. split; [right; left; reflexivity|]. unfold obj_get. rewrite Hg. reflexivity. }
    rewrite E in Hin. destruct Hin.
  - eexists. reflexivity.
Qed.

(** The handler chain after authentication: a 403, 400 or 500 answer, and
    the world unchanged. *)
Lemma post_handler_never_creates logActivity startGeneration (user body : jsobj) (w : world) :
  snd (post_report logActivity startGeneration user body w) = w
  /\ exists code msg, fst (post_report logActivity startGeneration user body w) = Ok (JsonResponse code false msg)
                      /\ (code = 403 \/ code = 400 \/ code = 500)%Z.
Proof.
  unfold post_report.
  destruct (requireRole _ (Some user)) as [|r] eqn:Er.
  - destruct (negb (no_errors (post_errors body))).
    + split; [reflexivity|]. do 2 eexists. split; [reflexivity|]. lia.
    + destruct (create_row_without_generatedBy
        [("title", obj_get body "title"); ("type", obj_get body "type");
         ("description", obj_get body "description"); ("templateId", obj_get body "templateId");
         ("parameters", json_stringify (obj_get body "parameters"));
         ("createdBy", obj_get user "id"); ("status", JStr "pending")] w eq_refl) as [e He].
      unfold catch_500, mcatch, mbind. rewrite He.
      split; [reflexivity|]. do 2 eexists. split; [reflexivity|]. lia.
  - unfold requireRole in Er. destruct (negb _); [|discriminate].
    injection Er as <-. split; [reflexivity|]. do 2 eexists. split; [reflexivity|]. lia.
Qed.

(** Every answer of [authenticateToken] that stops the chain is a 401 or 500
    error. *)
Lemma authenticateToken_respond verify findUser (authHeader : jsval) (r : response) (u : option jsobj) :
  authenticateToken verify findUser authHeader = (Respond r, u) ->
  exists code msg, r = JsonResponse code false msg /\ (code = 401 \/ code = 500)%Z.
Proof.
  unfold authenticateToken. cbv zeta.
  destruct (negb (truthy _)).
  { intros H. injection H as <- _. do 2 eexists. split; [reflexivity|lia]. }
  destruct (verify _) as [name|decoded].
  - destruct (String.eqb name "TokenExpiredError"); [|destruct (String.eqb name "JsonWebTokenError")];
      intros H; injection H as <- _; do 2 eexists; (split; [reflexivity|lia]).
  - destruct (findUser _) as [[user|]|e].
    + destruct (truthy _); intros H; [discriminate|]. injection H as <- _. do 2 eexists. split; [reflexivity|lia].
    + intros H. injection H as <- _. do 2 eexists. split; [reflexivity|lia].
    + intros H. injection H as <- _. do 2 eexists. split; [reflexivity|lia].
Qed.

(** [POST /] never creates a report: whatever the Authorization header,
    token verification and user lookup, every request ends in a 401, 403,
    400 or 500 answer with [success: false], and the world is unchanged. *)
Theorem post_report_never_creates logActivity startGeneration verify findUser
    (authHeader : jsval) (body : jsobj) (w : world) :
  snd (post_request logActivity startGeneration verify findUser authHeader body w) = w
  /\ exists code msg,
       fst (post_request logActivity startGeneration verify findUser authHeader body w)
       = Ok (JsonResponse code false msg)
       /\ (code = 401 \/ code = 403 \/ code = 400 \/ code = 500)%Z.
Proof.
  unfold post_request.
  destruct (authenticateToken verify findUser authHeader) as [[|r] u] eqn:E.
  - destruct u as [user|].
    + destruct (post_handler_never_creates logActivity startGeneration user body w) as [Hw [code [msg [Hr Hc]]]].
      split; [exact Hw|]. exists code, msg. split; [exact Hr|lia].
    + split; [reflexivity|]. do 2 eexists. split; [reflexivity|lia].
  - destruct (authenticateToken_respond _ _ _ _ _ E) as [code [msg [-> Hc]]].
    split; [reflexivity|]. exists code, msg. split; [reflexivity|lia].
Qed.

Lemma requireRole_admin_manager (user : jsobj) :
  In (obj_get user "role") [JStr "admin"; JStr "manager"] ->
  requireRole [JStr "admin"; JStr "manager"] (Some user) = Next.
Proof. intros [H|[H|[]]]; unfold requireRole; rewrite <- H; reflexivity. Qed.

Lemma changed_status (row : jsobj) (s : string) :
  changed_attributes row [("status", JStr s)]
  = if js_isEqual (obj_get row "status") (JStr s) then [] else [("status", JStr s)].
Proof. unfold changed_attributes. cbn -[obj_get js_isEqual]. destruct (js_isEqual _ _); reflexivity. Qed.

Lemma put_status_cases (s : string) :
  s = "pending" \/ s = "processing" \/ s = "completed" \/ s = "failed"
  \/ existsb (String.eqb s) ["pending"; "processing"; "completed"; "failed"] = false.
Proof.
  destruct (String.eqb_spec s "pending"); [left; assumption|].
  destruct (String.eqb_spec s "processing"); [right; left; assumption|].
  destruct (String.eqb_spec s "completed"); [right; right; left; assumption|].
  destruct (String.eqb_spec s "failed"); [right; right; right; left; assumption|].
  right; right; right; right. cbn.
  repeat match goal with H : s <> ?c |- context [String.eqb s ?c] =>
    rewrite (proj2 (String.eqb_neq s c) H) end.
  reflexivity.
Qed.

(** [PUT /:id] by an admin or manager with body [{status: s}] on a live report whose stored status is an enum value: if [s] is pending, completed or failed and differs from the stored status, the row gets status [s] and a new [updatedAt]; if [s] is the stored status, nothing is written; otherwise (as for processing) the table is unchanged and the answer is 400 or 500. *)
Theorem put_report_status logActivity (user : jsobj) (id : string) (i : Z) (row : jsobj)
    (s : string) (w : world) :
  In (obj_get user "role") [JStr "admin"; JStr "manager"] ->
  param_pk id = Some i -> live_row w i = Some row -> where_id (obj_get row "id") = Ok (Some i) ->
  In (obj_get row "status") (map JStr report_status_values) -> keeps_reports logActivity ->
  let w' := snd (put_report logActivity user id [("status", JStr s)] w) in
  (In s put_statuses -> obj_get row "status" <> JStr s ->
     row_lookup (w_reports w') i
     = Some (obj_set (obj_set row "status" (JStr s)) "updatedAt" (JDate (w_now w))))
  /\ (obj_get row "status" = JStr s -> w_reports w' = w_reports w)
  /\ (~ In s put_statuses ->
      w_reports w' = w_reports w
      /\ exists code msg, fst (put_report logActivity user id [("status", JStr s)] w)
                          = Ok (JsonResponse code false msg) /\ (code = 400 \/ code = 500)%Z).
Proof.
  intros Hrole Hpk Hlive Hwid Hst Hlog. cbv zeta.
  unfold put_report. rewrite (requireRole_admin_manager _ Hrole).
  assert (Hrow : row_lookup (w_reports w) i = Some row).
  { unfold live_row in Hlive. destruct (row_lookup (w_reports w) i); [|discriminate].
    destruct (truthy _); [discriminate|exact Hlive]. }
  apply in_map_iff in Hst. destruct Hst as [t [Ht Htin]].
  destruct (put_status_cases s) as [->|[->|[->|[->|Hs]]]].
  5: { assert (He : put_errors [("status", JStr s)] = ["Invalid status"]).
       { unfold put_errors. cbn -[existsb]. rewrite Hs. reflexivity. }
       assert (Hn : ~ In s put_statuses).
       { intros Hin. destruct Hin as [<-|[<-|[<-|[]]]]; discriminate. }
       rewrite He. cbn [no_errors negb fst snd mret].
       split; [intros Hin; contradiction|].
       split; [intros _; reflexivity|].
       intros _. split; [reflexivity|]. do 2 eexists. split; [reflexivity|]. lia. }
  all: unfold put_errors; cbn [own String.eqb Ascii.eqb Bool.eqb validator_string to_string app
                             existsb orb no_errors negb].
  all: unfold catch_500, mcatch, mbind, findByParam; rewrite Hpk, Hlive.
  all: unfold instance_update; rewrite changed_status, <- Ht.
  all: destruct Htin as [<-|[<-|[<-|[<-|[]]]]]; cbn [js_isEqual strict_eq String.eqb Ascii.eqb Bool.eqb].
  all: unfold status_accepted; cbn [own String.eqb Ascii.eqb Bool.eqb existsb orb report_status_values negb].
  all: try rewrite Hwid, Hrow.
  all: cbn [mret].
  all: try (match goal with HL : keeps_reports ?L |- context [?L ?u ?a ?d ?w1] =>
              pose proof (HL u a d w1) as Hl; destruct (L u a d w1) as [[[]|e] w2];
              cbn in Hl |- *; rewrite Hl end).
  all: split; [intros Hin Hne|split; [intros Heq|intros Hnin]].
  all: first [ reflexivity
             | exfalso; apply Hne; reflexivity
             | exfalso; cbn in Hin; intuition discriminate
             | discriminate
             | exfalso; apply Hnin; cbn; tauto
             | apply row_lookup_replace with (r := row); exact Hrow
             | split; [reflexivity|do 2 eexists; split; [reflexivity|]; lia] ].
Qed.

Lemma live_row_Some_lookup (w : world) (i : Z) (row : jsobj) :
  live_row w i = Some row -> row_lookup (w_reports w) i = Some row.
Proof.
  unfold live_row. destruct (row_lookup (w_reports w) i); [|discriminate].
  destruct (truthy _); [discriminate|exact id].
Qed.

Lemma delete_report_table logActivity (user : jsobj) (id : string) (i : Z) (row : jsobj) (w : world) :
  In (obj_get user "role") [JStr "admin"; JStr "manager"] ->
  param_pk id = Some i -> live_row w i = Some row -> keeps_reports logActivity ->
  w_reports (snd (delete_report logActivity user id w))
  = row_replace (w_reports w) i (deleted_row row (w_now w)).
Proof.
  intros Hrole Hpk Hlive Hlog. unfold delete_report. rewrite (requireRole_admin_manager _ Hrole).
  unfold catch_500, mcatch, mbind, findByParam. rewrite Hpk, Hlive.
  unfold destroy_row. rewrite Hlive.
  match goal with |- context [logActivity ?u ?a ?d ?w1] =>
    pose proof (Hlog u a d w1) as Hl; destruct (logActivity u a d w1) as [[[]|e] w2] end;
  cbn in Hl |- *; rewrite Hl; reflexivity.
Qed.

(** [DELETE /:id] by an admin or manager soft-deletes a live report (the row is kept with [deletedAt] set); afterwards [GET /:id] and a second [DELETE /:id] of the same id both answer 404. *)
Theorem delete_report_then_not_found logActivity (user : jsobj) (id : string) (i : Z) (row : jsobj)
    (w : world) :
  In (obj_get user "role") [JStr "admin"; JStr "manager"] ->
  param_pk id = Some i -> live_row w i = Some row -> keeps_reports logActivity ->
  let w1 := snd (delete_report logActivity user id w) in
  row_lookup (w_reports w1) i = Some (deleted_row row (w_now w))
  /\ fst (get_report id w1) = Ok (JsonResponse 404 false "Report not found")
  /\ fst (delete_report logActivity user id w1) = Ok (JsonResponse 404 false "Report not found").
Proof.
  intros Hrole Hpk Hlive Hlog w1.
  assert (Hl : row_lookup (w_reports w1) i = Some (deleted_row row (w_now w))).
  { unfold w1. rewrite (delete_report_table _ _ _ _ _ _ Hrole Hpk Hlive Hlog).
    eapply row_lookup_replace. apply live_row_Some_lookup. exact Hlive. }
  assert (Hgone : live_row w1 i = None).
  { unfold live_row. rewrite Hl. unfold deleted_row.
    rewrite obj_get_set_other by discriminate. rewrite obj_get_set_same. reflexivity. }
  split; [exact Hl|split].
  - unfold get_report, catch_500, mcatch, mbind, findByParam. rewrite Hpk, Hgone. reflexivity.
  - unfold delete_report. rewrite (requireRole_admin_manager _ Hrole).
    unfold catch_500, mcatch, mbind, findByParam. rewrite Hpk, Hgone. reflexivity.
Qed.

(** *** [generateReport] and the report's status *)

Lemma generateReport_is_catch (strategy : string -> jsobj -> result strategy_output)
    (reportId : jsval) (w : world) :
  exists msg, generateReport strategy reportId w = generateReport_catch reportId msg w.
Proof.
  destruct (generateReport_try_throws strategy reportId w) as [msg H].
  exists msg. unfold generateReport, mcatch. rewrite H. reflexivity.
Qed.

Lemma failed_row_status (row : jsobj) (now : Z) :
  obj_get (obj_set (obj_set row "status" (JStr "failed")) "updatedAt" (JDate now)) "status"
  = JStr "failed".
Proof. rewrite obj_get_set_other by discriminate. apply obj_get_set_same. Qed.

(** C3 (status lifecycle): the status never becomes [generating].  Every
    call of [generateReport] fails in [Report.findByPk] before any status
    update (its include alias [template] does not match the association
    alias [reportTemplate]), no strategy runs, and afterwards every row holds
    the status it had before or [failed].  On the row
    [{id: 1, type: 'custom', status: 'pending'}], [generateReport(1)] throws
    the include error and leaves the row [failed].  The update the [try]
    block would make next sets [processing], which the [status] enum
    rejects. *)
Theorem generateReport_never_sets_generating :
  (forall (strategy : string -> jsobj -> result strategy_output) (reportId : jsval) (w : world)
          (i : Z) (row' : jsobj),
     row_lookup (w_reports (snd (generateReport strategy reportId w))) i = Some row' ->
     obj_get row' "status" = JStr "failed"
     \/ exists row, row_lookup (w_reports w) i = Some row /\ obj_get row' "status" = obj_get row "status")
  /\ (forall (strategy : string -> jsobj -> result strategy_output) (reportId : jsval) (w : world),
        w_runs (snd (generateReport strategy reportId w)) = w_runs w)
  /\ (let (r, w) := generateReport no_template_strategy (JNum 1) world_1 in
      r = Throw template_alias_error
      /\ option_map (fun row => obj_get row "status") (row_1 w) = Some (JStr "failed")
      /\ map (fun e => obj_get (snd e) "status") (w_emitted w) = [JStr "failed"])
  /\ fst (instance_update pending_report
            [("status", JStr "processing"); ("startedAt", JDate (w_now world_1))] world_1)
     = Throw ("invalid input value for enum enum_reports_status: " ++ dq ++ "processing" ++ dq).
Proof.
  split; [|split; [|split]].
  - intros strategy reportId w i row' Hl.
    destruct (generateReport_is_catch strategy reportId w) as [msg E]. rewrite E in Hl.
    rewrite generateReport_catch_eq in Hl.
    assert (Hkeep : row_lookup (w_reports w) i = Some row' -> obj_get row' "status" = JStr "failed"
                    \/ exists row, row_lookup (w_reports w) i = Some row
                                   /\ obj_get row' "status" = obj_get row "status")
      by (intros H; right; exists row'; split; [exact H|reflexivity]).
    destruct (truthy reportId); [|exact (Hkeep Hl)].
    destruct (where_id reportId) as [[j|]|e]; cbn [snd w_reports] in Hl; try exact (Hkeep Hl).
    destruct (live_row w j) as [row|] eqn:Hlive; [|exact (Hkeep Hl)].
    destruct (Z.eq_dec i j) as [<-|Hne].
    + rewrite (row_lookup_replace _ _ row) in Hl by (apply live_row_Some_lookup; exact Hlive).
      injection Hl as <-. left. apply failed_row_status.
    + rewrite row_lookup_replace_other in Hl by exact Hne. exact (Hkeep Hl).
  - intros strategy reportId w.
    destruct (generateReport_is_catch strategy reportId w) as [msg E]. rewrite E.
    apply generateReport_catch_keeps_runs.
  - vm_compute. repeat split.
  - vm_compute. reflexivity.
Qed.

(** C4 (failure handling): every generation fails, with the include error
    of [Report.findByPk], whatever the generation strategies would do
    (fetch, transform and render are never reached).  For a truthy id that
    selects a live row, the [catch] block stores [failed] and a new
    [updatedAt], emits one failure event with the error message and
    rethrows; the error message and the completion time it passes to
    [Report.update] are not attributes of the model, so the row keeps
    whatever [errorMessage] and [completedAt] it had (none, on a stored
    row). *)
Theorem generateReport_failure_drops_error_message
    (strategy : string -> jsobj -> result strategy_output) (reportId : jsval) (w : world)
    (i : Z) (row : jsobj) :
  truthy reportId = true -> where_id reportId = Ok (Some i) -> live_row w i = Some row ->
  let row' := obj_set (obj_set row "status" (JStr "failed")) "updatedAt" (JDate (w_now w)) in
  generateReport strategy reportId w =
  (Throw template_alias_error,
   {| w_reports := row_replace (w_reports w) i row';
      w_emitted := w_emitted w ++ [failed_event reportId template_alias_error];
      w_runs := w_runs w; w_now := w_now w |})
  /\ own row' "errorMessage" = own row "errorMessage"
  /\ own row' "completedAt" = own row "completedAt".
Proof.
  intros Ht Hw Hlive row'.
  split; [|split; unfold row'; rewrite !own_obj_set_other by discriminate; reflexivity].
  assert (Hk : match reportId with JNum _ | JNaN | JStr _ => True | _ => False end).
  { destruct reportId; cbn in Hw; try discriminate; exact I. }
  unfold generateReport, mcatch. rewrite (generateReport_try_include strategy reportId w Hk).
  rewrite generateReport_catch_eq, Ht, Hw, Hlive. reflexivity.
Qed.

Lemma generateReport_failure_drops_error_message_witness :
  truthy (JNum 1) = true /\ where_id (JNum 1) = Ok (Some 1%Z) /\ live_row world_1 1 = Some pending_report
  /\ let row' := obj_set (obj_set pending_report "status" (JStr "failed")) "updatedAt"
                   (JDate (w_now world_1)) in
     generateReport no_template_strategy (JNum 1) world_1 =
     (Throw template_alias_error,
      {| w_reports := row_replace (w_reports world_1) 1 row';
         w_emitted := w_emitted world_1 ++ [failed_event (JNum 1) template_alias_error];
         w_runs := w_runs world_1; w_now := w_now world_1 |})
     /\ own row' "errorMessage" = own pending_report "errorMessage"
     /\ own row' "completedAt" = own pending_report "completedAt".
Proof.
  split; [reflexivity|split; [reflexivity|split; [reflexivity|]]].
  apply generateReport_failure_drops_error_message; reflexivity.
Defined.

(** [generateReport] on a falsy report id ([undefined], [null], [false], 0,
    [NaN] or the empty string) throws (the missing report, the include error
    of [Report.findByPk], or its refusal of [false]) and changes nothing: the
    [catch] block writes and emits only for a truthy id. *)
Theorem generateReport_falsy_id (strategy : string -> jsobj -> result strategy_output)
    (reportId : jsval) (w : world) :
  truthy reportId = false ->
  exists msg, generateReport strategy reportId w = (Throw msg, w)
              /\ In msg ["Report not found"; template_alias_error;
                         "Argument passed to findByPk is invalid: false"].
Proof.
  intros Ht. destruct reportId; try discriminate Ht.
  - exists "Report not found". split; [reflexivity|left; reflexivity].
  - exists "Report not found". split; [reflexivity|left; reflexivity].
  - destruct b; [discriminate Ht|].
    eexists. split; [reflexivity|right; right; left; reflexivity].
  - eexists. split.
    + unfold generateReport, mcatch. rewrite generateReport_try_include by exact I.
      rewrite generateReport_catch_eq, Ht. reflexivity.
    + right; left; reflexivity.
  - eexists. split; [reflexivity|right; left; reflexivity].
  - eexists. split.
    + unfold generateReport, mcatch. rewrite generateReport_try_include by exact I.
      rewrite generateReport_catch_eq, Ht. reflexivity.
    + right; left; reflexivity.
Qed.


Section InitBrowserRuns.
Local Open Scope nat_scope.
Local Open Scope list_scope.

Lemma run_app (s1 s2 : list nat) (s : bstate) (cs : list call_state) :
  run (s1 ++ s2) s cs = let (s', cs') := run s1 s cs in run s2 s' cs'.
Proof.
  revert s cs. induction s1 as [|i s1 IH]; intros s cs; [reflexivity|].
  cbn [app run]. destruct (call_step s (nth i cs (CDone 0))). apply IH.
Qed.

Lemma nth_set_nth_same {A} (n : nat) (l : list A) (x d : A) :
  n < length l -> nth n (set_nth n l x) d = x.
Proof.
  revert l. induction n as [|n IH]; intros [|y l] H; cbn in *; try lia; [reflexivity|].
  apply IH. lia.
Qed.

Lemma nth_set_nth_other {A} (n m : nat) (l : list A) (x d : A) :
  n <> m -> nth m (set_nth n l x) d = nth m l d.
Proof.
  revert m l. induction n as [|n IH]; intros [|m] [|y l] H; cbn; try reflexivity; try lia.
  apply IH. lia.
Qed.

Lemma length_set_nth {A} (n : nat) (l : list A) (x : A) : length (set_nth n l x) = length l.
Proof. revert l. induction n as [|n IH]; intros [|y l]; cbn; auto. Qed.

Lemma set_nth_middle {A} (l r : list A) (x y : A) :
  set_nth (length l) (l ++ x :: r) y = l ++ y :: r.
Proof. induction l as [|z l IH]; cbn; [reflexivity|rewrite IH; reflexivity]. Qed.

Lemma nth_middle' {A} (l r : list A) (x d : A) : nth (length l) (l ++ x :: r) d = x.
Proof. induction l as [|z l IH]; cbn; [reflexivity|exact IH]. Qed.

(** Starting calls [0 .. k-1] from a fresh singleton: each is suspended on its
    own launch. *)
Lemma run_starts (n k : nat) :
  k <= n ->
  run (seq 0 k) fresh (repeat CStart n)
  = ({| b_browser := None; b_launched := k |}, map CWaiting (seq 0 k) ++ repeat CStart (n - k)).
Proof.
  induction k as [|k IH]; intros Hk.
  - cbn. rewrite Nat.sub_0_r. reflexivity.
  - rewrite seq_S, run_app, IH by lia. cbn [run plus].
    replace (n - k) with (S (n - S k)) by lia. cbn [repeat].
    pose proof (nth_middle' (map CWaiting (seq 0 k)) (repeat CStart (n - S k)) CStart (CDone 0)) as Hn.
    pose proof (set_nth_middle (map CWaiting (seq 0 k)) (repeat CStart (n - S k)) CStart (CWaiting k)) as Hs.
    rewrite length_map, length_seq in Hn, Hs. rewrite Hn. cbn. rewrite Hs.
    rewrite map_app, <- app_assoc. reflexivity.
Qed.

Lemma run_resumes (sched : list nat) (s : bstate) (cs : list call_state) :
  (forall j, In j sched -> j < length cs) ->
  (forall j, j < length cs -> nth j cs (CDone 0) = CWaiting j \/ nth j cs (CDone 0) = CDone j) ->
  b_launched (fst (run sched s cs)) = b_launched s
  /\ length (snd (run sched s cs)) = length cs
  /\ forall j, j < length cs ->
       (In j sched -> nth j (snd (run sched s cs)) (CDone 0) = CDone j)
       /\ (~ In j sched -> nth j (snd (run sched s cs)) (CDone 0) = nth j cs (CDone 0)).
Proof.
  revert s cs. induction sched as [|i sched IH]; intros s cs Hlt Hinv.
  - cbn. repeat split; auto. intros [].
  - cbn [run].
    assert (Hi : i < length cs) by (apply Hlt; left; reflexivity).
    assert (Hstep : exists s', call_step s (nth i cs (CDone 0)) = (s', CDone i) /\ b_launched s' = b_launched s).
    { destruct (Hinv i Hi) as [-> | ->]; cbn; eexists; split; reflexivity. }
    destruct Hstep as [s' [-> Hs']].
    set (cs1 := set_nth i cs (CDone i)).
    assert (Hlen1 : length cs1 = length cs) by apply length_set_nth.
    assert (Hnth1 : forall j, nth j cs1 (CDone 0) = if Nat.eqb i j then CDone j else nth j cs (CDone 0)).
    { intros j. unfold cs1. destruct (Nat.eqb_spec i j) as [<-|Hne].
      - apply nth_set_nth_same. exact Hi.
      - apply nth_set_nth_other. exact Hne. }
    destruct (IH s' cs1) as (HL & Hlen & Hj).
    + intros j Hj. rewrite Hlen1. apply Hlt. right. exact Hj.
    + intros j Hj. rewrite Hnth1. destruct (Nat.eqb i j); [right; reflexivity|apply Hinv; lia].
    + split; [congruence|split; [congruence|]].
      intros j Hjl. rewrite <- Hlen1 in Hjl. destruct (Hj j Hjl) as [Hin Hout].
      split.
      * intros [<-|Hin']; [|exact (Hin Hin')].
        destruct (in_dec Nat.eq_dec i sched) as [Hin'|Hn]; [exact (Hin Hin')|].
        rewrite (Hout Hn), Hnth1, Nat.eqb_refl. reflexivity.
      * intros Hn. rewrite Hout by (intros H'; apply Hn; right; exact H'). rewrite Hnth1.
        destruct (Nat.eqb_spec i j); [exfalso; apply Hn; left; assumption|reflexivity].
Qed.

(** [n] calls of [initBrowser()] that all reach [await puppeteer.launch]
    before any launch resolves: [puppeteer.launch] runs [n] times and every
    call gets its own browser, whatever order the launches resolve in. *)
Theorem initBrowser_overlapping_calls (n : nat) (resumes : list nat) :
  Permutation resumes (seq 0 n) ->
  b_launched (fst (run (seq 0 n ++ resumes) fresh (repeat CStart n))) = n
  /\ snd (run (seq 0 n ++ resumes) fresh (repeat CStart n)) = map CDone (seq 0 n).
Proof.
  intros Hp. rewrite run_app, run_starts by lia. rewrite Nat.sub_diag, app_nil_r.
  destruct (run_resumes resumes {| b_browser := None; b_launched := n |} (map CWaiting (seq 0 n)))
    as (HL & Hlen & Hj).
  - intros j Hj. rewrite length_map, length_seq. apply (Permutation_in _ Hp), in_seq in Hj. lia.
  - intros j Hj. left. rewrite length_map, length_seq in Hj.
    rewrite nth_indep with (d' := CWaiting 0) by (rewrite length_map, length_seq; exact Hj).
    rewrite map_nth, seq_nth by exact Hj. reflexivity.
  - split; [exact HL|].
    apply nth_ext with (d := CDone 0) (d' := CDone 0).
    + rewrite Hlen, !length_map. reflexivity.
    + intros j Hjn. rewrite Hlen, length_map, length_seq in Hjn.
      rewrite (proj1 (Hj j ltac:(rewrite length_map, length_seq; exact Hjn))).
      * rewrite map_nth, seq_nth by exact Hjn. reflexivity.
      * apply (Permutation_in _ (Permutation_sym Hp)), in_seq. lia.
Qed.

(** Calls of [initBrowser()] made one after another launch one browser and
    all get it. *)
Theorem initBrowser_sequential_calls (n : nat) :
  0 < n ->
  run (flat_map (fun i => [i; i]) (seq 0 n)) fresh (repeat CStart n)
  = ({| b_browser := Some 0; b_launched := 1 |}, repeat (CDone 0) n).
Proof.
  intros Hn.
  assert (H : forall k, 0 < k <= n ->
            run (flat_map (fun i => [i; i]) (seq 0 k)) fresh (repeat CStart n)
            = ({| b_browser := Some 0; b_launched := 1 |}, repeat (CDone 0) k ++ repeat CStart (n - k))).
  { intros k. induction k as [|k IH]; intros Hk; [lia|].
    destruct k as [|k].
    - destruct n as [|n]; [lia|]. cbn. rewrite Nat.sub_0_r. reflexivity.
    - rewrite seq_S, flat_map_app, run_app, IH by lia. cbn [flat_map app plus].
      replace (n - S k) with (S (n - S (S k))) by lia.
      change (repeat CStart (S (n - S (S k)))) with (CStart :: repeat CStart (n - S (S k))).
      pose proof (nth_middle' (repeat (CDone 0) (S k)) (repeat CStart (n - S (S k))) CStart (CDone 0)) as Hn1.
      pose proof (set_nth_middle (repeat (CDone 0) (S k)) (repeat CStart (n - S (S k))) CStart (CDone 0)) as Hs1.
      pose proof (nth_middle' (repeat (CDone 0) (S k)) (repeat CStart (n - S (S k))) (CDone 0) (CDone 0)) as Hn2.
      pose proof (set_nth_middle (repeat (CDone 0) (S k)) (repeat CStart (n - S (S k))) (CDone 0) (CDone 0)) as Hs2.
      rewrite repeat_length in Hn1, Hs1, Hn2, Hs2.
      cbn [run]. rewrite Hn1. cbn [call_step b_browser]. rewrite Hs1, Hn2. cbn [call_step]. rewrite Hs2.
      cbn [run]. f_equal.
      replace (S (S k)) with (S k + 1) by lia. rewrite repeat_app, <- app_assoc. reflexivity. }
  rewrite (H n) by lia. rewrite Nat.sub_diag, app_nil_r. reflexivity.
Qed.

End InitBrowserRuns.

(** *** Witnesses of the further properties *)


Lemma generateReport_falsy_id_witness :
  truthy (JNum 0) = false
  /\ exists msg, generateReport no_template_strategy (JNum 0) world_1 = (Throw msg, world_1)
                 /\ In msg ["Report not found"; template_alias_error;
                            "Argument passed to findByPk is invalid: false"].
Proof. split; [reflexivity|]. apply generateReport_falsy_id. reflexivity. Defined.


Lemma filter_without_contains_never_throws_witness :
  exists kept, applyTemplateTransformations mixed_members [filter_step [branch_is_nairobi]] = Ok kept.
Proof. apply filter_without_contains_never_throws. constructor; [discriminate|constructor]. Defined.


Lemma filter_contains_missing_field_throws_witness :
  exists m, applyTemplateTransformations mixed_members [filter_step [branch_contains_N]] = Throw m.
Proof.
  apply (filter_contains_missing_field_throws branch_contains_N [] mixed_members [("balance", JNum 8)]).
  - reflexivity.
  - right; right; left; reflexivity.
  - left; reflexivity.
Defined.


Lemma sort_step_orders_witness :
  exists sorted,
    applyTemplateTransformations mixed_members [sort_balance_desc] = Ok sorted
    /\ Permutation sorted mixed_members
    /\ Sorted (fun a b => if strict_eq (t_order sort_balance_desc) (JStr "desc")
                          then (field_num (t_field sort_balance_desc) b <= field_num (t_field sort_balance_desc) a)%Q
                          else (field_num (t_field sort_balance_desc) a <= field_num (t_field sort_balance_desc) b)%Q) sorted.
Proof.
  apply sort_step_orders; [reflexivity|].
  intros r [<-|[<-|[<-|[]]]]; eexists; split; reflexivity.
Defined.


Lemma aggregate_sum_total_witness :
  (sum_field "total" (aggregateData mixed_members "branch"
     [{| a_name := "total"; a_operation := JStr "sum"; a_sourceField := "balance" |}])
   == sum_field "balance" mixed_members)%Q.
Proof.
  apply aggregate_sum_total.
  - intros r [<-|[<-|[<-|[]]]]; reflexivity.
  - intros r [<-|[<-|[<-|[]]]]; eexists; reflexivity.
  - vm_compute. discriminate.
Defined.


Lemma aggregate_count_total_witness :
  (sum_field "n" (aggregateData mixed_members "branch"
     [{| a_name := "n"; a_operation := JStr "count"; a_sourceField := "" |}])
   == inject_Z (Z.of_nat (length mixed_members)))%Q.
Proof. apply aggregate_count_total. intros r [<-|[<-|[<-|[]]]]; reflexivity. Defined.


Lemma renderTable_inserts_values_unescaped_witness :
  exists out, renderTable html_members members_section = Ok out
              /\ occurs_in ("<td>" ++ "<b>Wanjiru</b>" ++ "</td>") out.
Proof.
  apply (renderTable_inserts_values_unescaped html_members html_members members_section
           [("name", JStr "<b>Wanjiru</b>"); ("balance", JNum 0)] name_column).
  - reflexivity.
  - left; reflexivity.
  - left; reflexivity.
  - reflexivity.
  - discriminate.
Defined.


Lemma renderTable_falsy_as_null_witness :
  renderTable ([] ++ [("name", JStr "<b>Wanjiru</b>"); ("balance", JNum 0)] :: []) members_section
  = renderTable ([] ++ obj_set [("name", JStr "<b>Wanjiru</b>"); ("balance", JNum 0)] "balance" JNull :: [])
      members_section.
Proof. apply renderTable_falsy_as_null; reflexivity. Defined.


Lemma beforeCreate_quarterly_due_witness :
  rn_dueDate (beforeCreate december_2026 new_quarterly)
  = DateObj (if (9 <=? month december_2026)%Z then mkDate (year december_2026 + 1) 0 30
             else mkDate (year december_2026) (3 * (month december_2026 / 3) + 3) 30).
Proof. apply beforeCreate_quarterly_due; [cbn; lia|reflexivity|reflexivity]. Defined.


Lemma beforeCreate_annual_due_march_31_witness :
  rn_dueDate (beforeCreate december_2026 new_annual) = DateObj (mkDate (year december_2026 + 1) 2 31).
Proof. apply beforeCreate_annual_due_march_31; reflexivity. Defined.


Lemma findOverdue_iff_isOverdue_witness :
  In [("id", JNum 1); ("status", JStr "pending"); ("dueDate", JDate 5)] (findOverdue 10 dated_world)
  <-> In [("id", JNum 1); ("status", JStr "pending"); ("dueDate", JDate 5)] (live_rows dated_world)
      /\ truthy (isOverdue 10 [("id", JNum 1); ("status", JStr "pending"); ("dueDate", JDate 5)]) = true.
Proof.
  apply findOverdue_iff_isOverdue.
  cbn [w_reports dated_world map snd].
  repeat apply Forall_cons; try apply Forall_nil; unfold stored_row; cbn;
    (split; [first [right; eexists; reflexivity | left; reflexivity] | eexists; reflexivity]).
Defined.


Lemma requireRole_analyst_is_manager_witness :
  requireRole [JStr "admin"; JStr "manager"; JStr "analyst"] (Some manager_user)
  = requireRole [JStr "admin"; JStr "manager"] (Some manager_user)
  /\ (requireRole [JStr "admin"; JStr "manager"] (Some manager_user) = Next <-> isManager manager_user = true).
Proof. apply requireRole_analyst_is_manager. right; left; reflexivity. Defined.


Lemma authenticateToken_ignores_scheme_witness :
  authenticateToken reject_all_tokens no_users (JStr ("Token" ++ " " ++ "abc.def"))
  = authenticateToken reject_all_tokens no_users (JStr ("Bearer " ++ "abc.def")).
Proof. apply authenticateToken_ignores_scheme; [reflexivity|discriminate]. Defined.


Lemma authenticateToken_no_token_witness :
  authenticateToken reject_all_tokens no_users (JStr "Bearer")
    = (Respond (JsonResponse 401 false "No token provided"), None)
  /\ authenticateToken reject_all_tokens no_users (JStr ("Bearer" ++ "  " ++ "abc.def"))
    = (Respond (JsonResponse 401 false "No token provided"), None).
Proof. apply authenticateToken_no_token. reflexivity. Defined.


Lemma put_report_status_witness :
  obj_get pending_report "status" <> JStr "failed"
  /\ let w' := snd (put_report no_audit manager_user "1" [("status", JStr "failed")] world_1) in
     (In "failed" put_statuses -> obj_get pending_report "status" <> JStr "failed" ->
        row_lookup (w_reports w') 1
        = Some (obj_set (obj_set pending_report "status" (JStr "failed")) "updatedAt" (JDate (w_now world_1))))
     /\ (obj_get pending_report "status" = JStr "failed" -> w_reports w' = w_reports world_1)
     /\ (~ In "failed" put_statuses ->
         w_reports w' = w_reports world_1
         /\ exists code msg, fst (put_report no_audit manager_user "1" [("status", JStr "failed")] world_1)
                             = Ok (JsonResponse code false msg) /\ (code = 400 \/ code = 500)%Z).
Proof.
  split; [discriminate|].
  apply put_report_status.
  - right; left; reflexivity.
  - reflexivity.
  - reflexivity.
  - reflexivity.
  - left; reflexivity.
  - intros u a d w. reflexivity.
Defined.


Lemma delete_report_then_not_found_witness :
  let w1 := snd (delete_report no_audit manager_user "1" world_1) in
  row_lookup (w_reports w1) 1 = Some (deleted_row pending_report (w_now world_1))
  /\ fst (get_report "1" w1) = Ok (JsonResponse 404 false "Report not found")
  /\ fst (delete_report no_audit manager_user "1" w1) = Ok (JsonResponse 404 false "Report not found").
Proof.
  apply delete_report_then_not_found.
  - right; left; reflexivity.
  - reflexivity.
  - reflexivity.
  - intros u a d w. reflexivity.
Defined.


Lemma initBrowser_overlapping_calls_witness :
  b_launched (fst (run (seq 0 2%nat ++ [1%nat; 0%nat]) fresh (repeat CStart 2%nat))) = 2%nat
  /\ snd (run (seq 0 2%nat ++ [1%nat; 0%nat]) fresh (repeat CStart 2%nat)) = map CDone (seq 0 2%nat).
Proof. apply initBrowser_overlapping_calls. apply perm_swap. Defined.


Lemma initBrowser_sequential_calls_witness :
  run (flat_map (fun i => [i; i]%list) (seq 0 3%nat)) fresh (repeat CStart 3%nat)
  = ({| b_browser := Some 0%nat; b_launched := 1%nat |}, repeat (CDone 0%nat) 3%nat).
Proof. apply initBrowser_sequential_calls. lia. Defined.


